(** * plot14: accelerometer window, features, inference throttling

    A shallow embedding of [src/main.js].  The page keeps a sliding window of
    the last 200 accelerometer samples, derives seven statistics from it,
    standardises them, hands them to a TensorFlow.js model and maps the
    predicted label onto a five-step intensity display.

    The source file holds the script twice: the script proper (lines 1-188)
    and a second copy of it (lines 189-348) without the loading guards and
    without the try/catch around the inference.  The top level of this file
    embeds the first; [Module Second] embeds the functions of the second that
    differ.

    JavaScript numbers are IEEE-754 binary64 values.  The numeric code is
    written over the interface [JsNumber], whose instance is Rocq's primitive
    binary64 floats: they evaluate exactly as the script does, rounding,
    infinities and NaN included.  What does not depend on the arithmetic is
    proved at the interface; what does is proved at binary64. *)

From Stdlib Require Import String Ascii.
From Stdlib Require Import ZArith List Bool Lia.
From Stdlib Require Import Floats.
Import ListNotations.

Set Warnings "-inexact-float".

(* ------------------------------------------------------------------ *)
(** ** Numbers *)

(** The operations the script applies to numbers. *)
Class JsNumber (T : Type) : Type := {
  num_zero : T;                 (* the literal 0 *)
  num_eps : T;                  (* the literal 1e-8 *)
  num_add : T -> T -> T;        (* a + b *)
  num_sub : T -> T -> T;        (* a - b *)
  num_mul : T -> T -> T;        (* a * b *)
  num_div : T -> T -> T;        (* a / b *)
  num_sq : T -> T;              (* a ** 2 *)
  num_sqrt : T -> T;            (* Math.sqrt(a) *)
  num_of_length : nat -> T;     (* arr.length, as a number *)
  num_gt : T -> T -> bool;      (* a > b *)
  num_truthy : T -> bool        (* ToBoolean(a): false for 0, -0 and NaN *)
}.

Declare Scope js_scope.
Delimit Scope js_scope with js.
Infix "+" := num_add : js_scope.
Infix "-" := num_sub : js_scope.
Infix "*" := num_mul : js_scope.
Infix "/" := num_div : js_scope.
Infix ">" := num_gt : js_scope.

(** binary64: what the script computes with.  [a ** 2] is [a * a]: the
    engines' [pow] returns the product for the exponent 2. *)
#[export] Instance float_JsNumber : JsNumber float := {
  num_zero := 0%float;
  num_eps := 1e-8%float;
  num_add := PrimFloat.add;
  num_sub := PrimFloat.sub;
  num_mul := PrimFloat.mul;
  num_div := PrimFloat.div;
  num_sq := fun a => PrimFloat.mul a a;
  num_sqrt := PrimFloat.sqrt;
  num_of_length := fun n => PrimFloat.of_uint63 (Uint63.of_Z (Z.of_nat n));
  num_gt := fun a b => PrimFloat.ltb b a;
  num_truthy := fun a => negb (PrimFloat.is_zero a || PrimFloat.is_nan a)
}.

(* ------------------------------------------------------------------ *)
(** ** Exceptions *)

Inductive JsError : Type :=
| TypeError                       (* property access on null/undefined *)
| PredictionRuntimeError.         (* model.predict threw, or out.data() rejected *)

Inductive outcome (A : Type) : Type :=
| Ok (a : A)
| Throw (e : JsError).
Arguments Ok {A} a.
Arguments Throw {A} e.

Definition bind {A B : Type} (m : outcome A) (k : A -> outcome B) : outcome B :=
  match m with
  | Ok a => k a
  | Throw e => Throw e
  end.

Notation "v <- m ;; k" := (bind m (fun v => k))
  (at level 61, m at next level, right associativity).

(* ------------------------------------------------------------------ *)
(** ** Strings *)

(** [s.includes(sub)]: [sub] occurs somewhere in [s]. *)
Fixpoint includes (s sub : string) : bool :=
  String.prefix sub s ||
  match s with
  | EmptyString => false
  | String _ rest => includes rest sub
  end.

(** [String.prototype.toLowerCase] on ASCII text: A-Z go to a-z, every other
    character is kept. *)
Definition lower_ascii (c : ascii) : ascii :=
  let n := nat_of_ascii c in
  if (65 <=? n)%nat && (n <=? 90)%nat then ascii_of_nat (n + 32) else c.

Fixpoint toLowerCase_ascii (s : string) : string :=
  match s with
  | EmptyString => EmptyString
  | String c rest => String (lower_ascii c) (toLowerCase_ascii rest)
  end.

(** [!lab] for a string: only the empty string is falsy. *)
Definition str_falsy (s : string) : bool := String.eqb s EmptyString.

(** [entry || dflt], where [entry] is an array element that may be missing. *)
Definition str_or (entry : option string) (dflt : string) : string :=
  match entry with
  | Some s => if str_falsy s then dflt else s
  | None => dflt
  end.

(* ------------------------------------------------------------------ *)
(** ** The script *)

Definition SAMPLING_TARGET : nat := 200.

(** Texts written to [logs.innerText]. *)
Inductive StatusMsg : Type :=
| MsgNone                 (* nothing written yet *)
| MsgModelLoading         (* 'モデル読み込み中...' *)
| MsgScalerLoading        (* 'モデル読み込み完了。scaler 読み込み...' *)
| MsgModelReady           (* 'モデル準備完了。' *)
| MsgAssetsFailed         (* 'モデルまたは前処理パラメータの読み込みに失敗しました。...' *)
| MsgSkippedNotLoaded     (* 'モデルが未読み込みのため推論をスキップしています...' *)
| MsgPredictionFailed     (* '推論中にエラーが発生しました。...' *)
| MsgCapturing.           (* 'センサー取得中...' *)

Section Script.

Context {T : Type} `{JsNumber T}.

(** How [toLowerCase] acts on labels; [toLowerCase_ascii] for ASCII labels. *)
Variable toLowerCase : string -> string.

Local Open Scope js_scope.

(** [entry || dflt] for a number read from an array: the default replaces a
    missing entry and a falsy one (0, -0, NaN). *)
Definition num_or (entry : option T) (dflt : T) : T :=
  match entry with
  | Some v => if num_truthy v then v else dflt
  | None => dflt
  end.

Record Sample : Type := { x : T; y : T; z : T }.

(** [scaler.json]: [{mean: [...], scale: [...]}]. *)
Record ScalerParams : Type := { scaler_mean : list T; scaler_scale : list T }.

(** [model.predict(input)] followed by [await out.data()]: the probabilities,
    or an exception. *)
Definition Classifier : Type := list T -> outcome (list T).

(** What [updateUI] shows: the label with its confidence ([probs[maxIdx]],
    undefined for an empty [probs]) and the one dot switched on. *)
Record PredictionResult : Type := {
  label : string;
  confidence : option T;
  level : Z
}.

(** The script's mutable variables and the page elements it writes.
    [calls] is a history of the inputs handed to [model.predict], oldest
    first; the script has no such variable, it records the external effect. *)
Record PipelineState : Type := {
  model : option Classifier;
  scaler : option ScalerParams;
  labels : option (list string);
  buffer : list Sample;
  lastPredTime : Z;
  logs : StatusMsg;
  shown : option PredictionResult;
  calls : list (list T)
}.

Definition set_buffer (st : PipelineState) (b : list Sample) : PipelineState :=
  {| model := model st; scaler := scaler st; labels := labels st;
     buffer := b; lastPredTime := lastPredTime st; logs := logs st;
     shown := shown st; calls := calls st |}.

Definition set_lastPredTime (st : PipelineState) (t : Z) : PipelineState :=
  {| model := model st; scaler := scaler st; labels := labels st;
     buffer := buffer st; lastPredTime := t; logs := logs st;
     shown := shown st; calls := calls st |}.

Definition set_logs (st : PipelineState) (m : StatusMsg) : PipelineState :=
  {| model := model st; scaler := scaler st; labels := labels st;
     buffer := buffer st; lastPredTime := lastPredTime st; logs := m;
     shown := shown st; calls := calls st |}.

Definition set_shown (st : PipelineState) (r : PredictionResult) : PipelineState :=
  {| model := model st; scaler := scaler st; labels := labels st;
     buffer := buffer st; lastPredTime := lastPredTime st; logs := logs st;
     shown := Some r; calls := calls st |}.

Definition record_call (st : PipelineState) (input : list T) : PipelineState :=
  {| model := model st; scaler := scaler st; labels := labels st;
     buffer := buffer st; lastPredTime := lastPredTime st; logs := logs st;
     shown := shown st; calls := calls st ++ [input] |}.

(** State of the page when the script starts. *)
Definition initial_state : PipelineState :=
  {| model := None; scaler := None; labels := None; buffer := [];
     lastPredTime := 0%Z; logs := MsgNone; shown := None; calls := [] |}.

(** [loadAssets] (lines 29-42): the three fetches in order, inside one
    try/catch; what was assigned before a failure stays assigned.  The two
    JSON files are assigned as parsed: [None] is a file that parses to a
    falsy value (null, false, 0, an empty string), which [!scaler] and
    [!labels] later take as missing. *)
Definition loadAssets (st : PipelineState)
    (fetched_model : outcome Classifier)
    (fetched_scaler : outcome (option ScalerParams))
    (fetched_labels : outcome (option (list string))) : PipelineState :=
  let failed (s : PipelineState) := set_logs s MsgAssetsFailed in
  match fetched_model with
  | Throw _ => failed st
  | Ok m =>
      let st1 :=
        {| model := Some m; scaler := scaler st; labels := labels st;
           buffer := buffer st; lastPredTime := lastPredTime st;
           logs := MsgScalerLoading; shown := shown st; calls := calls st |} in
      match fetched_scaler with
      | Throw _ => failed st1
      | Ok sc =>
          let st2 :=
            {| model := model st1; scaler := sc; labels := labels st1;
               buffer := buffer st1; lastPredTime := lastPredTime st1;
               logs := logs st1; shown := shown st1; calls := calls st1 |} in
          match fetched_labels with
          | Throw _ => failed st2
          | Ok ls =>
              {| model := model st2; scaler := scaler st2; labels := ls;
                 buffer := buffer st2; lastPredTime := lastPredTime st2;
                 logs := MsgModelReady; shown := shown st2; calls := calls st2 |}
          end
      end
  end.

(** *** computeFeatures (lines 62-87) *)

(** [arr.reduce((a,b)=>a+b,0)/arr.length] *)
Definition mean (arr : list T) : T :=
  fold_left (fun a b => a + b) arr num_zero / num_of_length (length arr).

(** [Math.sqrt(arr.reduce((s,v)=>s+(v-m)**2,0)/arr.length)] with [m = mean(arr)] *)
Definition std (arr : list T) : T :=
  let m := mean arr in
  num_sqrt (fold_left (fun s v => s + num_sq (v - m)) arr num_zero
            / num_of_length (length arr)).

(** [arr[i]] where the index is in range; the loop of [rms] never leaves it. *)
Definition at_index (arr : list T) (i : nat) : T := nth i arr num_zero.

(** The [for] loop of [rms]: [i] runs over [0 .. buf.length-1]. *)
Definition rms (buf : list Sample) (xs ys zs : list T) : T :=
  fold_left
    (fun s i =>
       let v := num_sqrt (at_index xs i * at_index xs i
                          + at_index ys i * at_index ys i
                          + at_index zs i * at_index zs i) in
       s + v)
    (seq 0 (length buf)) num_zero
  / num_of_length (length buf).

Definition computeFeatures (buf : list Sample) : list T :=
  let xs := map x buf in
  let ys := map y buf in
  let zs := map z buf in
  [ mean xs; mean ys; mean zs;
    std xs; std ys; std zs;
    rms buf xs ys zs ].

(** *** standardize (lines 89-99) *)

(** The loop body at index [i]. *)
Definition standardize_at (mean_arr scale_arr : list T) (i : nat) (f : T) : T :=
  (f - num_or (nth_error mean_arr i) num_zero)
  / num_or (nth_error scale_arr i) num_eps.

(** The [for] loop: [i] counts up from [i], [out] is pushed to. *)
Fixpoint standardize_loop (mean_arr scale_arr : list T)
    (rest : list T) (i : nat) (out : list T) : list T :=
  match rest with
  | [] => out
  | f :: rest' =>
      standardize_loop mean_arr scale_arr rest' (S i)
        (out ++ [standardize_at mean_arr scale_arr i f])
  end.

(** [scaler?.mean || []] and [scaler?.scale || []]: a missing scaler gives
    empty arrays, it does not throw. *)
Definition standardize (sc : option ScalerParams) (features : list T)
  : outcome (list T) :=
  let mean_arr := match sc with Some p => scaler_mean p | None => [] end in
  let scale_arr := match sc with Some p => scaler_scale p | None => [] end in
  Ok (standardize_loop mean_arr scale_arr features 0 []).

(** *** The decision (lines 129-142) *)

(** [probs[i] > probs[maxIdx]]; a comparison with undefined is false. *)
Definition gt_at (probs : list T) (i m : nat) : bool :=
  match nth_error probs i, nth_error probs m with
  | Some a, Some b => a > b
  | _, _ => false
  end.

(** [let maxIdx = 0; for (i=1; i<probs.length; i++) if (probs[i] > probs[maxIdx]) maxIdx = i;] *)
Definition argmax (probs : list T) : nat :=
  fold_left (fun maxIdx i => if gt_at probs i maxIdx then i else maxIdx)
            (seq 1 (length probs - 1)) 0%nat.

Definition mapToFive (lab : string) : Z :=
  if str_falsy lab then 3%Z
  else
    let l := toLowerCase lab in
    if includes l "sit" || includes l "stand" then 1%Z
    else if String.eqb l "walking" then 3%Z
    else if String.eqb l "upstairs" || String.eqb l "downstairs" then 3%Z
    else if String.eqb l "jogging" || String.eqb l "running" then 5%Z
    else 3%Z.

(** [updateUI] (lines 152-158). *)
Definition updateUI (st : PipelineState) (lab : string) (five : Z)
    (conf : option T) : PipelineState :=
  set_shown st {| label := lab; confidence := conf; level := five |}.

(** *** doPredictFromBuffer (lines 101-150) *)

(** The body of the [try] block once [model.predict] has been called. *)
Definition predict_and_show (st : PipelineState) (m : Classifier)
    (labs : list string) (scaled : list T) : outcome PipelineState :=
  probs <- m scaled ;;
  let maxIdx := argmax probs in
  let lab := str_or (nth_error labs maxIdx) "unknown" in
  let five := mapToFive lab in
  Ok (updateUI st lab five (nth_error probs maxIdx)).

(** The [try] block (lines 118-149): any exception ends in the [catch],
    which writes the failure text to [logs].  The [await] is taken to
    settle while the sample is being handled; what runs after it reads
    [labels] and writes page elements only. *)
Definition try_inference (st : PipelineState) (m : Classifier)
    (labs : list string) : PipelineState :=
  let feats := computeFeatures (buffer st) in
  match standardize (scaler st) feats with
  | Throw _ => set_logs st MsgPredictionFailed
  | Ok scaled =>
      let st1 := record_call st scaled in
      match predict_and_show st1 m labs scaled with
      | Ok st2 => st2
      | Throw _ => set_logs st1 MsgPredictionFailed
      end
  end.

(** [now] is what [Date.now()] returns during the call. *)
Definition doPredictFromBuffer (st : PipelineState) (now : Z) : PipelineState :=
  match model st, scaler st, labels st with
  | Some m, Some _, Some labs =>
      if (now - lastPredTime st <? 800)%Z then st
      else try_inference (set_lastPredTime st now) m labs
  | _, _, _ =>
      if (now - lastPredTime st >? 2000)%Z
      then set_lastPredTime (set_logs st MsgSkippedNotLoaded) now
      else st
  end.

(** *** processSample (lines 50-60) *)

(** [buffer.push(sample)] then at most one [buffer.shift()]. *)
Definition push_sample (buf : list Sample) (sample : Sample) : list Sample :=
  let buf1 := buf ++ [sample] in
  if (SAMPLING_TARGET <? length buf1)%nat then tl buf1 else buf1.

Definition processSample (st : PipelineState) (sample : Sample) (now : Z)
  : PipelineState :=
  let st1 := set_buffer st (push_sample (buffer st) sample) in
  if (length (buffer st1) =? SAMPLING_TARGET)%nat
  then doPredictFromBuffer st1 now
  else st1.

(** A run of the page: samples arrive one after the other, each with the
    clock reading of its arrival. *)
Definition run (st : PipelineState) (arrivals : list (Sample * Z)) : PipelineState :=
  fold_left (fun s a => processSample s (fst a) (snd a)) arrivals st.

End Script.

Arguments Sample T : clear implicits.
Arguments ScalerParams T : clear implicits.
Arguments Classifier T : clear implicits.
Arguments PredictionResult T : clear implicits.
Arguments PipelineState T : clear implicits.

(* ------------------------------------------------------------------ *)
(** ** The second copy of the script (lines 189-348)

    [processSample], [computeFeatures], [updateUI] and the arg-max loop are
    the same text as above.  The copy reads [scaler.mean] without the
    optional chaining, has no loading guard and no try/catch in
    [doPredictFromBuffer], and a shorter [mapToFive].  It is embedded at
    binary64, where reading past the end of [mean] gives NaN. *)

Module Second.
Section Script.

Variable toLowerCase : string -> string.

Local Open Scope float_scope.

(** [(features[i] - mean[i]) / (scale[i] || 1e-8)] (line 267). *)
Definition standardize_at (mean_arr scale_arr : list float) (i : nat) (f : float)
  : float :=
  (f - match nth_error mean_arr i with Some m => m | None => nan end)
  / num_or (nth_error scale_arr i) 1e-8.

Fixpoint standardize_loop (mean_arr scale_arr : list float)
    (rest : list float) (i : nat) (out : list float) : list float :=
  match rest with
  | [] => out
  | f :: rest' =>
      standardize_loop mean_arr scale_arr rest' (S i)
        (out ++ [standardize_at mean_arr scale_arr i f])
  end.

(** [scaler.mean] on a null [scaler] throws. *)
Definition standardize (sc : option (ScalerParams float)) (features : list float)
  : outcome (list float) :=
  match sc with
  | None => Throw TypeError
  | Some p =>
      Ok (standardize_loop (scaler_mean p) (scaler_scale p) features 0 [])
  end.

(** [lab] is [labels[maxIdx]], undefined when the index is past the end;
    [lab.toLowerCase()] then throws (lines 297-304). *)
Definition mapToFive (lab : option string) : outcome Z :=
  match lab with
  | None => Throw TypeError
  | Some s =>
      let l := toLowerCase s in
      if includes l "sit" || includes l "standing" then Ok 1%Z
      else if String.eqb l "walking" then Ok 3%Z
      else if String.eqb l "upstairs" || String.eqb l "downstairs" then Ok 3%Z
      else if String.eqb l "jogging" then Ok 5%Z
      else Ok 3%Z
  end.

(** [doPredictFromBuffer] (lines 273-308).  An exception leaves the async
    function as a rejected promise that nobody handles: the result pairs the
    state reached with the exception, if any. *)
Definition doPredictFromBuffer (st : PipelineState float) (now : Z)
  : PipelineState float * option JsError :=
  if (now - lastPredTime st <? 800)%Z then (st, None)
  else
    let st0 := set_lastPredTime st now in
    let feats := computeFeatures (buffer st0) in
    match standardize (scaler st0) feats with
    | Throw e => (st0, Some e)
    | Ok scaled =>
        match model st0 with
        | None => (st0, Some TypeError)
        | Some m =>
            let st1 := record_call st0 scaled in
            match m scaled with
            | Throw e => (st1, Some e)
            | Ok probs =>
                let maxIdx := argmax probs in
                match labels st1 with
                | None => (st1, Some TypeError)
                | Some labs =>
                    let lab := nth_error labs maxIdx in
                    match mapToFive lab with
                    | Throw e => (st1, Some e)
                    | Ok five =>
                        (updateUI st1 (match lab with Some s => s | None => "" end)
                                  five (nth_error probs maxIdx), None)
                    end
                end
            end
        end
    end.

(** [processSample] (lines 222-232) drops the promise. *)
Definition processSample (st : PipelineState float) (sample : Sample float)
    (now : Z) : PipelineState float :=
  let st1 := set_buffer st (push_sample (buffer st) sample) in
  if (List.length (buffer st1) =? SAMPLING_TARGET)%nat
  then fst (doPredictFromBuffer st1 now)
  else st1.

End Script.
End Second.

(* ------------------------------------------------------------------ *)
(** ** What the specification says, in its own words *)

(** The [n] most recent elements of a sequence, in arrival order. *)
Definition most_recent {A : Type} (n : nat) (l : list A) : list A :=
  skipn (List.length l - n) l.

(** Σ in binary64: the terms are added to 0 one after the other, in the
    order of the sequence, each addition rounding. *)
Fixpoint sum_from (acc : float) (terms : list float) : float :=
  match terms with
  | [] => acc
  | v :: rest => sum_from (PrimFloat.add acc v) rest
  end.

Definition sum_in_order (terms : list float) : float := sum_from 0%float terms.

(** N, the number of terms, as a binary64 number. *)
Definition count (A : Type) (l : list A) : float :=
  PrimFloat.of_uint63 (Uint63.of_Z (Z.of_nat (List.length l))).
Arguments count {A} l.

(** [mean_axis = (Σ values) / N] *)
Definition formula_mean (vals : list float) : float :=
  (sum_in_order vals / count vals)%float.

(** [std_axis = sqrt((Σ (value - mean_axis)^2) / N)], the square as a
    product. *)
Definition formula_std (vals : list float) : float :=
  PrimFloat.sqrt
    (sum_in_order
       (map (fun v => (v - formula_mean vals) * (v - formula_mean vals)) vals)
     / count vals)%float.

(** [rms = (Σ sqrt(x_i^2 + y_i^2 + z_i^2)) / N] *)
Definition formula_rms (w : list (Sample float)) : float :=
  (sum_in_order
     (map (fun s => PrimFloat.sqrt (x s * x s + y s * y s + z s * z s)) w)
   / count w)%float.

(** A binary64 value that is a number and not an infinity. *)
Definition sf_finite (a : spec_float) : Prop :=
  match a with
  | S754_zero _ | S754_finite _ _ _ => True
  | S754_infinity _ | S754_nan => False
  end.

(** [max(a, b)] on binary64. *)
Definition fmax (a b : float) : float := if PrimFloat.ltb a b then b else a.

(** Normalizer contract: [(feature[i] - mean[i]) / max(scale[i], epsilon)]. *)
Definition spec_standardize_at (f m s : float) : float :=
  PrimFloat.div (PrimFloat.sub f m) (fmax s 1e-8%float).

(** Ordered rules, first match wins, with a default. *)
Fixpoint first_match (rules : list ((string -> bool) * Z)) (dflt : Z)
    (l : string) : Z :=
  match rules with
  | [] => dflt
  | (applies, lvl) :: rest =>
      if applies l then lvl else first_match rest dflt l
  end.

Definition contains (sub : string) (l : string) : bool := includes l sub.
Definition equals (other : string) (l : string) : bool := String.eqb l other.
Definition either (p q : string -> bool) (l : string) : bool := p l || q l.

(** ActivityMapper policy as the specification lists it; [l] is the label
    in lower case. *)
Definition spec_rules : list ((string -> bool) * Z) :=
  [ (either (contains "sit") (contains "stand"), 1%Z);
    (equals "walking", 3%Z);
    (either (equals "upstairs") (equals "downstairs"), 3%Z);
    (either (contains "jogging") (contains "running"), 5%Z) ].

Definition spec_level (toLowerCase : string -> string) (lab : string) : Z :=
  first_match spec_rules 3%Z (toLowerCase lab).

(** The same policy with rule 4 by equality, as [mapToFive] tests it. *)
Definition code_rules : list ((string -> bool) * Z) :=
  [ (either (contains "sit") (contains "stand"), 1%Z);
    (equals "walking", 3%Z);
    (either (equals "upstairs") (equals "downstairs"), 3%Z);
    (either (equals "jogging") (equals "running"), 5%Z) ].

Definition code_level (toLowerCase : string -> string) (lab : string) : Z :=
  first_match code_rules 3%Z (toLowerCase lab).

(** Classifier contract: a distribution over [len(LabelSet)] classes. *)
Definition well_formed_output {T : Type} (labs : list string) (probs : list T)
  : Prop :=
  List.length probs = List.length labs.

(** All three assets are loaded. *)
Definition assets_loaded {T : Type} (st : PipelineState T) : Prop :=
  model st <> None /\ scaler st <> None /\ labels st <> None.

(** Number of inferences started so far. *)
Definition inferences {T : Type} (st : PipelineState T) : nat :=
  List.length (calls st).

(* ------------------------------------------------------------------ *)
(** ** Sample data used in examples *)

Definition sample_still : Sample float :=
  {| x := 0%float; y := 0%float; z := 9.8%float |}.

Definition wisdm_labels : list string :=
  [ "Walking"; "Jogging"; "Sitting"; "Standing"; "Upstairs"; "Downstairs" ]%string.

Definition unit_scaler : ScalerParams float :=
  {| scaler_mean := repeat 0%float 7; scaler_scale := repeat 1%float 7 |}.

(** A classifier that always answers with the same distribution. *)
Definition constant_classifier (probs : list float) : Classifier float :=
  fun _ => Ok probs.

(** A classifier whose call fails. *)
Definition failing_classifier : Classifier float :=
  fun _ => Throw PredictionRuntimeError.

(** Assets loaded, 199 samples buffered, no inference yet. *)
Definition almost_full (m : Classifier float) : PipelineState float :=
  {| model := Some m; scaler := Some unit_scaler; labels := Some wisdm_labels;
     buffer := repeat sample_still 199; lastPredTime := 0%Z;
     logs := MsgCapturing; shown := None; calls := [] |}.

(* ------------------------------------------------------------------ *)
(** ** The rest of the page: sensor events and the Start button *)

(** [res] of [DeviceMotionEvent.requestPermission()], when the browser has
    that function; the request can also fail. *)
Inductive Permission : Type :=
| NoPermissionApi                 (* no [requestPermission] function *)
| Answered (res : string)         (* the promise resolved with [res] *)
| RequestThrows.                  (* the promise rejected *)

(** An answer that lets the first copy start the capture. *)
Definition grants (perm : Permission) : Prop :=
  perm = NoPermissionApi \/ perm = Answered "granted".

Section Page.

Context {T : Type} `{JsNumber T}.
Variable toLowerCase : string -> string.

(** [ev.accelerationIncludingGravity] or [ev.acceleration]: an object whose
    [x], [y], [z] are numbers or null. *)
Record Acceleration : Type := {
  acc_x : option T;
  acc_y : option T;
  acc_z : option T
}.

Record MotionEvent : Type := {
  accelerationIncludingGravity : option Acceleration;
  acceleration : option Acceleration
}.

(** [ev.accelerationIncludingGravity || ev.acceleration]: an object is
    truthy, null is not. *)
Definition chosen_acceleration (ev : MotionEvent) : option Acceleration :=
  match accelerationIncludingGravity ev with
  | Some a => Some a
  | None => acceleration ev
  end.

(** The [devicemotion] listener (lines 179-183). *)
Definition handler (st : PipelineState T) (ev : MotionEvent) (now : Z)
  : PipelineState T :=
  match chosen_acceleration ev with
  | None => st
  | Some a =>
      processSample toLowerCase st
        {| x := num_or (acc_x a) num_zero;
           y := num_or (acc_y a) num_zero;
           z := num_or (acc_z a) num_zero |}
        now
  end.

(** Sensor events handled one after the other, each with its clock reading. *)
Definition run_events (st : PipelineState T) (events : list (MotionEvent * Z))
  : PipelineState T :=
  fold_left (fun s e => handler s (fst e) (snd e)) events st.

(** The page around the pipeline: the Start button's [disabled] flag, the
    number of [devicemotion] listeners registered, the number of alerts
    raised. *)
Record Page : Type := {
  pipeline : PipelineState T;
  startBtn_disabled : bool;
  listeners : nat;
  alerts : nat
}.

(** The page once the script has run to its end. *)
Definition fresh_page (st : PipelineState T) : Page :=
  {| pipeline := st; startBtn_disabled := false; listeners := 0; alerts := 0 |}.

(** [window.addEventListener('devicemotion', handler)] and the text that
    follows it (lines 184-185). *)
Definition subscribe (pg : Page) : Page :=
  {| pipeline := set_logs (pipeline pg) MsgCapturing;
     startBtn_disabled := startBtn_disabled pg;
     listeners := S (listeners pg);
     alerts := alerts pg |}.

Definition enable_button (pg : Page) : Page :=
  {| pipeline := pipeline pg; startBtn_disabled := false;
     listeners := listeners pg; alerts := alerts pg |}.

Definition disable_button (pg : Page) : Page :=
  {| pipeline := pipeline pg; startBtn_disabled := true;
     listeners := listeners pg; alerts := alerts pg |}.

Definition raise_alert (pg : Page) : Page :=
  {| pipeline := pipeline pg; startBtn_disabled := startBtn_disabled pg;
     listeners := listeners pg; alerts := S (alerts pg) |}.

(** [startMotion] (lines 161-186). *)
Definition startMotion (pg : Page) (perm : Permission) : Page :=
  match perm with
  | NoPermissionApi => subscribe pg
  | Answered res =>
      if String.eqb res "granted" then subscribe pg
      else enable_button (raise_alert pg)
  | RequestThrows => enable_button pg
  end.

(** The button's click listener (lines 17-26).  [startMotion] has no
    statement that throws outside its own try/catch, so the listener's
    [catch] is not entered. *)
Definition onClick (pg : Page) (perm : Permission) : Page :=
  startMotion (disable_button pg) perm.

(** A click on the button: the browser dispatches no click event on a
    disabled button. *)
Definition click (pg : Page) (perm : Permission) : Page :=
  if startBtn_disabled pg then pg else onClick pg perm.

Definition clicks (pg : Page) (perms : list Permission) : Page :=
  fold_left click perms pg.

(** A [devicemotion] event reaches every registered listener. *)
Definition devicemotion (pg : Page) (ev : MotionEvent) (now : Z) : Page :=
  {| pipeline := Nat.iter (listeners pg) (fun st => handler st ev now) (pipeline pg);
     startBtn_disabled := startBtn_disabled pg;
     listeners := listeners pg;
     alerts := alerts pg |}.

(** What a result shown on the page satisfies. *)
Definition result_consistent (r : PredictionResult T) : Prop :=
  level r = mapToFive toLowerCase (label r)
  /\ label r <> EmptyString
  /\ (level r = 1%Z \/ level r = 3%Z \/ level r = 5%Z).

End Page.

Arguments Acceleration T : clear implicits.
Arguments MotionEvent T : clear implicits.
Arguments Page T : clear implicits.

(** The second copy's [startMotion] (lines 319-339) and click listener
    (lines 342-345): a refusal returns without touching the button, a
    failed request is logged and the listener is registered all the same. *)
Module SecondPage.
Section Script.

Context {T : Type} `{JsNumber T}.

Definition startMotion (pg : Page T) (perm : Permission) : Page T :=
  match perm with
  | NoPermissionApi => subscribe pg
  | Answered res =>
      if String.eqb res "granted" then subscribe pg
      else raise_alert pg
  | RequestThrows => subscribe pg
  end.

Definition onClick (pg : Page T) (perm : Permission) : Page T :=
  startMotion (disable_button pg) perm.

Definition click (pg : Page T) (perm : Permission) : Page T :=
  if startBtn_disabled pg then pg else onClick pg perm.

Definition clicks (pg : Page T) (perms : list Permission) : Page T :=
  fold_left click perms pg.

End Script.
End SecondPage.

(** Assets loaded, nothing buffered, no inference yet. *)
Definition loaded_empty (m : Classifier float) : PipelineState float :=
  {| model := Some m; scaler := Some unit_scaler; labels := Some wisdm_labels;
     buffer := []; lastPredTime := 0%Z;
     logs := MsgModelReady; shown := None; calls := [] |}.

(* ================================================================== *)
(** * Properties *)

(* ------------------------------------------------------------------ *)
(** ** The sliding window *)

Section Window.

Context {T : Type} `{JsNumber T}.
Variable toLowerCase : string -> string.

Lemma try_inference_buffer (st : PipelineState T) m labs :
  buffer (try_inference toLowerCase st m labs) = buffer st.
Proof.
  unfold try_inference, standardize, predict_and_show, bind.
  destruct (m _); reflexivity.
Qed.

Lemma doPredictFromBuffer_buffer (st : PipelineState T) now :
  buffer (doPredictFromBuffer toLowerCase st now) = buffer st.
Proof.
  unfold doPredictFromBuffer.
  destruct (model st), (scaler st), (labels st);
    repeat match goal with |- context [if ?c then _ else _] => destruct c end;
    rewrite ?try_inference_buffer; reflexivity.
Qed.

Lemma processSample_buffer (st : PipelineState T) s now :
  buffer (processSample toLowerCase st s now) = push_sample (buffer st) s.
Proof.
  unfold processSample.
  destruct (_ =? _)%nat; [rewrite doPredictFromBuffer_buffer|]; reflexivity.
Qed.

Lemma run_buffer arrivals : forall st : PipelineState T,
  buffer (run toLowerCase st arrivals)
  = fold_left push_sample (map fst arrivals) (buffer st).
Proof.
  unfold run.
  induction arrivals as [|a rest IH]; intros st; simpl; [reflexivity|].
  rewrite IH, processSample_buffer. reflexivity.
Qed.

Lemma push_sample_length (buf : list (Sample T)) s :
  (List.length buf <= SAMPLING_TARGET)%nat ->
  (List.length (push_sample buf s) <= SAMPLING_TARGET)%nat.
Proof.
  intros Hb. unfold push_sample.
  destruct (Nat.ltb_spec SAMPLING_TARGET (List.length (buf ++ [s]))) as [Hlt|Hge];
    [|exact Hge].
  rewrite length_app in Hlt. simpl in Hlt.
  destruct buf as [|h t]; simpl in *; [lia|].
  rewrite length_app. simpl. lia.
Qed.

Lemma most_recent_cons (A : Type) n (h : A) (r : list A) :
  (n <= List.length r)%nat -> most_recent n (h :: r) = most_recent n r.
Proof.
  intros Hn. unfold most_recent. simpl List.length.
  replace (S (List.length r) - n)%nat with (S (List.length r - n)) by lia.
  reflexivity.
Qed.

Lemma most_recent_all (A : Type) n (l : list A) :
  (List.length l <= n)%nat -> most_recent n l = l.
Proof.
  intros Hl. unfold most_recent.
  replace (List.length l - n)%nat with 0%nat by lia. reflexivity.
Qed.

Lemma pushes_most_recent (l : list (Sample T)) : forall buf,
  (List.length buf <= SAMPLING_TARGET)%nat ->
  fold_left push_sample l buf = most_recent SAMPLING_TARGET (buf ++ l).
Proof.
  induction l as [|s l IH]; intros buf Hb; simpl.
  - rewrite app_nil_r, most_recent_all; auto.
  - rewrite IH by (apply push_sample_length; exact Hb).
    unfold push_sample.
    destruct (Nat.ltb_spec SAMPLING_TARGET (List.length (buf ++ [s]))) as [Hlt|Hge].
    + rewrite length_app in Hlt. simpl in Hlt.
      destruct buf as [|h t]; simpl in *; [unfold SAMPLING_TARGET in Hlt; lia|].
      rewrite <- app_assoc. simpl.
      rewrite most_recent_cons; [reflexivity|].
      rewrite length_app. simpl. lia.
    + rewrite <- app_assoc. reflexivity.
Qed.

(** C1. Whatever samples arrive and whenever, starting from an empty window:
    the window never holds more than 200 samples, and once 200 or more have
    arrived it holds exactly the last 200 of them, in arrival order.  One
    arrival appends at the tail and drops the head when that makes 201. *)
Theorem window_holds_most_recent (st : PipelineState T)
    (arrivals : list (Sample T * Z)) :
  buffer st = [] ->
  let st' := run toLowerCase st arrivals in
  (List.length (buffer st') <= SAMPLING_TARGET)%nat
  /\ (SAMPLING_TARGET <= List.length arrivals ->
      buffer st' = most_recent SAMPLING_TARGET (map fst arrivals)
      /\ List.length (buffer st') = SAMPLING_TARGET)%nat
  /\ (forall s now,
        buffer (processSample toLowerCase st' s now)
        = if (SAMPLING_TARGET <? List.length (buffer st' ++ [s]))%nat
          then tl (buffer st' ++ [s]) else buffer st' ++ [s]).
Proof.
  intros Hempty st'.
  assert (Hbuf : buffer st' = most_recent SAMPLING_TARGET (map fst arrivals)).
  { subst st'. rewrite run_buffer, Hempty, pushes_most_recent; simpl; [reflexivity|lia]. }
  assert (Hlen : List.length (most_recent SAMPLING_TARGET (map fst arrivals))
                 = Nat.min SAMPLING_TARGET (List.length arrivals)).
  { unfold most_recent. rewrite length_skipn, length_map. lia. }
  split; [|split].
  - rewrite Hbuf, Hlen. lia.
  - intros Hn. split; [exact Hbuf|]. rewrite Hbuf, Hlen. lia.
  - intros s now. rewrite processSample_buffer. reflexivity.
Qed.

End Window.

Lemma window_holds_most_recent_witness :
  let st' := run toLowerCase_ascii (@initial_state float)
                 (repeat (sample_still, 1000%Z) 250) in
  (List.length (buffer st') <= SAMPLING_TARGET)%nat
  /\ buffer st' = repeat sample_still 200.
Proof.
  pose proof (window_holds_most_recent toLowerCase_ascii (@initial_state float)
                (repeat (sample_still, 1000%Z) 250) eq_refl) as W.
  rewrite repeat_length in W.
  split; [apply W|].
  destruct W as [_ [W _]].
  destruct W as [W _]; [unfold SAMPLING_TARGET; lia|].
  rewrite W. reflexivity.
Defined.

(* ------------------------------------------------------------------ *)
(** ** Throttling *)

Section Throttle.

Context {T : Type} `{JsNumber T}.
Variable toLowerCase : string -> string.

Lemma predict_and_show_calls (st st2 : PipelineState T) m labs scaled :
  predict_and_show toLowerCase st m labs scaled = Ok st2 ->
  calls st2 = calls st /\ lastPredTime st2 = lastPredTime st
  /\ model st2 = model st /\ scaler st2 = scaler st /\ labels st2 = labels st
  /\ logs st2 = logs st.
Proof.
  unfold predict_and_show, bind.
  destruct (m scaled); [|discriminate].
  intros E. injection E as <-. repeat split.
Qed.

(** One pass through the [try] block: one more call of the model, whatever
    the outcome; the clock mark and the assets are not touched. *)
Lemma try_inference_effect (st : PipelineState T) m labs :
  inferences (try_inference toLowerCase st m labs) = S (inferences st)
  /\ lastPredTime (try_inference toLowerCase st m labs) = lastPredTime st
  /\ model (try_inference toLowerCase st m labs) = model st
  /\ scaler (try_inference toLowerCase st m labs) = scaler st
  /\ labels (try_inference toLowerCase st m labs) = labels st.
Proof.
  unfold try_inference, standardize, inferences.
  match goal with |- context [predict_and_show ?f ?a ?b ?c ?d] =>
    destruct (predict_and_show f a b c d) as [st2|e] eqn:E end.
  - apply predict_and_show_calls in E.
    destruct E as (-> & -> & -> & -> & -> & _). simpl.
    rewrite length_app. simpl. repeat split; lia.
  - simpl. rewrite length_app. simpl. repeat split; lia.
Qed.

Lemma push_sample_full (buf : list (Sample T)) s :
  List.length buf = SAMPLING_TARGET ->
  List.length (push_sample buf s) = SAMPLING_TARGET.
Proof.
  intros Hb. unfold push_sample.
  rewrite length_app. simpl.
  destruct (Nat.ltb_spec SAMPLING_TARGET (List.length buf + 1)); [|lia].
  destruct buf as [|h t]; simpl in *; [unfold SAMPLING_TARGET in Hb; lia|].
  rewrite length_app. simpl. lia.
Qed.

(** A sample that fills (or keeps full) the window, assets loaded, and the
    800 ms passed: the state is the one the [try] block leaves. *)
Lemma processSample_due (st : PipelineState T) s now m sc labs :
  model st = Some m -> scaler st = Some sc -> labels st = Some labs ->
  List.length (push_sample (buffer st) s) = SAMPLING_TARGET ->
  (800 <= now - lastPredTime st)%Z ->
  processSample toLowerCase st s now
  = try_inference toLowerCase
      (set_lastPredTime (set_buffer st (push_sample (buffer st) s)) now) m labs.
Proof.
  intros Hm Hs Hl Hfull Hdue.
  unfold processSample. simpl. rewrite Hfull, Nat.eqb_refl.
  unfold doPredictFromBuffer. simpl. rewrite Hm, Hs, Hl.
  destruct (Z.ltb_spec (now - lastPredTime st) 800); [lia|reflexivity].
Qed.


Lemma processSample_due_effect (st : PipelineState T) s now :
  assets_loaded st ->
  List.length (push_sample (buffer st) s) = SAMPLING_TARGET ->
  (800 <= now - lastPredTime st)%Z ->
  let st' := processSample toLowerCase st s now in
  inferences st' = S (inferences st)
  /\ lastPredTime st' = now
  /\ assets_loaded st'
  /\ List.length (buffer st') = SAMPLING_TARGET.
Proof.
  intros Hloaded Hfull Hdue st'.
  assert (Hb : buffer st' = push_sample (buffer st) s)
    by apply processSample_buffer.
  destruct Hloaded as (Hm & Hs & Hl).
  destruct (model st) as [m|] eqn:Em; [|congruence].
  destruct (scaler st) as [sc|] eqn:Es; [|congruence].
  destruct (labels st) as [labs|] eqn:El; [|congruence].
  subst st'.
  rewrite (processSample_due st s now m sc labs Em Es El Hfull Hdue) in *.
  match goal with |- context [try_inference ?f ?a ?b ?c] =>
    destruct (try_inference_effect a b c) as (Hi & Ht & Hm' & Hs' & Hl') end.
  rewrite Hi, Ht. unfold assets_loaded. rewrite Hm', Hs', Hl', Hb. simpl.
  rewrite Em, Es, El. repeat split; congruence.
Qed.


End Throttle.

Lemma almost_full_loaded m : assets_loaded (almost_full m).
Proof. repeat split; discriminate. Qed.


(* ------------------------------------------------------------------ *)
(** ** The feature extractor *)

Section Features.

Local Open Scope float_scope.

(** Unfold the number interface at binary64, and nothing else. *)
Ltac at_binary64 :=
  cbn [num_zero num_eps num_add num_sub num_mul num_div num_sq num_sqrt
       num_of_length float_JsNumber].

(** A [reduce] that adds [g v] to the accumulator sums the [g v] in order. *)
Lemma reduce_sum (g : float -> float) (l : list float) : forall acc,
  fold_left (fun s v => s + g v) l acc = sum_from acc (map g l).
Proof.
  induction l as [|v l IH]; intros acc; [reflexivity|].
  cbn [fold_left map sum_from]. apply IH.
Qed.

Lemma mean_is_formula (arr : list float) : mean arr = formula_mean arr.
Proof.
  unfold mean, formula_mean, sum_in_order, count. at_binary64.
  rewrite <- (map_id arr) at 3.
  rewrite <- (reduce_sum (fun v => v)). reflexivity.
Qed.

Lemma std_is_formula (arr : list float) : std arr = formula_std arr.
Proof.
  unfold std, formula_std, sum_in_order, count. at_binary64.
  rewrite <- reduce_sum, mean_is_formula. reflexivity.
Qed.

Lemma skipn_head_map (A B : Type) (f : A -> B) (d : B) k :
  forall (l : list A) a r,
    skipn k l = a :: r -> nth k (map f l) d = f a /\ skipn (S k) l = r.
Proof.
  induction k as [|k IH]; intros [|b l] a r E; simpl in *; try discriminate.
  - injection E as -> ->. split; reflexivity.
  - apply IH. exact E.
Qed.

(** The loop of [rms] from index [k] on, over the samples still to come. *)
Lemma rms_loop_sum (full : list (Sample float)) (rest : list (Sample float)) :
  forall k acc,
    skipn k full = rest ->
    fold_left
      (fun s i =>
         s + PrimFloat.sqrt
               (at_index (map x full) i * at_index (map x full) i
                + at_index (map y full) i * at_index (map y full) i
                + at_index (map z full) i * at_index (map z full) i))
      (seq k (List.length rest)) acc
    = sum_from acc
        (map (fun s => PrimFloat.sqrt (x s * x s + y s * y s + z s * z s)) rest).
Proof.
  induction rest as [|s rest IH]; intros k acc E;
    cbn [List.length seq fold_left map sum_from]; [reflexivity|].
  destruct (skipn_head_map _ _ x 0 k full s rest E) as [Hx Hs].
  destruct (skipn_head_map _ _ y 0 k full s rest E) as [Hy _].
  destruct (skipn_head_map _ _ z 0 k full s rest E) as [Hz _].
  rewrite (IH (S k)) by exact Hs.
  unfold at_index. at_binary64. rewrite Hx, Hy, Hz. reflexivity.
Qed.

Lemma rms_is_formula (buf : list (Sample float)) :
  rms buf (map x buf) (map y buf) (map z buf) = formula_rms buf.
Proof.
  unfold rms, formula_rms, sum_in_order, count. at_binary64.
  rewrite <- (rms_loop_sum buf buf 0 0 eq_refl). reflexivity.
Qed.

(** C2, as the code has it.  For every window the extractor returns the
    seven values mean_x, mean_y, mean_z, std_x, std_y, std_z, rms in this
    order, each computed in binary64 with the sums accumulated from 0 in
    arrival order: a mean is (Σ v) / N, a std is the population deviation
    sqrt((Σ (v - mean)(v - mean)) / N), and rms is the mean magnitude
    (Σ sqrt(x x + y y + z z)) / N.  Every operation rounds. *)
Theorem computeFeatures_in_binary64 (buf : list (Sample float)) :
  computeFeatures buf
  = [ formula_mean (map x buf); formula_mean (map y buf); formula_mean (map z buf);
      formula_std (map x buf); formula_std (map y buf); formula_std (map z buf);
      formula_rms buf ]
  /\ List.length (computeFeatures buf) = 7%nat.
Proof.
  split; [|reflexivity].
  unfold computeFeatures.
  rewrite !mean_is_formula, !std_is_formula, rms_is_formula.
  reflexivity.
Qed.

End Features.

(** 200 samples that all read z = 9.8: the arithmetic mean of the axis is
    9.8 and its deviation is 0, but the sums round, and the extractor
    returns a mean just below 9.8 and a deviation above 0. *)
Lemma constant_window_is_rounded :
  let window := repeat sample_still 200 in
  forallb (fun s => PrimFloat.eqb (z s) 9.8%float) window = true
  /\ nth_error (computeFeatures window) 2 = Some 9.7999999999999687%float
  /\ 9.7999999999999687%float <> 9.8%float
  /\ nth_error (computeFeatures window) 5 = Some 3.1974423109204508e-14%float
  /\ 3.1974423109204508e-14%float <> 0%float.
Proof.
  split; [vm_compute; reflexivity|].
  split; [vm_compute; reflexivity|].
  split; [intros E; apply (f_equal Prim2SF) in E; vm_compute in E; discriminate|].
  split; [vm_compute; reflexivity|].
  intros E. apply (f_equal Prim2SF) in E. vm_compute in E. discriminate.
Qed.

(** A two-sample window where nothing rounds: means 1.5, 2, 0.5;
    deviations 1.5, 2, 0.5; mean magnitude (5 + 1)/2 = 3. *)
Example computeFeatures_binary64 :
  computeFeatures
    [ {| x := 3%float; y := 4%float; z := 0%float |};
      {| x := 0%float; y := 0%float; z := 1%float |} ]
  = [ 1.5; 2; 0.5; 1.5; 2; 0.5; 3 ]%float.
Proof. vm_compute. reflexivity. Qed.

(* ------------------------------------------------------------------ *)
(** ** binary64 facts

    Rocq's primitive floats are specified through [Prim2SF], which reads a
    float as a sign, a mantissa and an exponent; the comparisons and the
    arithmetic are those of [SpecFloat]. *)

Ltac sf_shapes :=
  repeat match goal with
         | a : spec_float |- _ => destruct a as [[|]|[|]| |[|] ? ?]
         end.

Ltac sf_compare :=
  cbn [SFcompare SFltb SFleb SFeqb] in *;
  repeat match goal with
         | H : context [Pos.compare_cont Eq ?a ?b] |- _ =>
             change (Pos.compare_cont Eq a b) with (Pos.compare a b) in H
         | |- context [Pos.compare_cont Eq ?a ?b] =>
             change (Pos.compare_cont Eq a b) with (Pos.compare a b)
         end;
  repeat match goal with
         | H : context [Z.compare ?a ?b] |- _ => destruct (Z.compare_spec a b)
         | |- context [Z.compare ?a ?b] => destruct (Z.compare_spec a b)
         | H : context [Pos.compare ?a ?b] |- _ => destruct (Pos.compare_spec a b)
         | |- context [Pos.compare ?a ?b] => destruct (Pos.compare_spec a b)
         end;
  cbn [CompOpp] in *;
  try discriminate; try congruence; try lia; auto.

Section Order.

Lemma SFltb_irrefl a : SFltb a a = false.
Proof. unfold SFltb. sf_shapes; sf_compare. Qed.

Lemma SFltb_trans a b c :
  SFltb a b = true -> SFltb b c = true -> SFltb a c = true.
Proof. unfold SFltb. intros Hab Hbc. sf_shapes; sf_compare. Qed.

Lemma SFltb_cotrans a b c :
  c <> S754_nan ->
  SFltb a b = true -> SFltb a c = true \/ SFltb c b = true.
Proof. unfold SFltb. intros Hc Hab. sf_shapes; sf_compare. Qed.

Lemma SFltb_false_leb a b :
  a <> S754_nan -> b <> S754_nan ->
  SFltb b a = false -> SFleb a b = true.
Proof. unfold SFltb, SFleb. intros Ha Hb Hab. sf_shapes; sf_compare. Qed.

Lemma SFeqb_refl a : a <> S754_nan -> SFeqb a a = true.
Proof. unfold SFeqb. intros Ha. sf_shapes; sf_compare. Qed.

Lemma is_nan_false (a : float) : is_nan a = false <-> Prim2SF a <> S754_nan.
Proof.
  unfold is_nan. rewrite FloatAxioms.eqb_spec. split.
  - intros E N. rewrite N in E. discriminate.
  - intros N. rewrite SFeqb_refl; auto.
Qed.

Lemma is_finite_true (a : float) : is_finite a = true -> sf_finite (Prim2SF a).
Proof.
  unfold is_finite, is_nan, is_infinity.
  rewrite !FloatAxioms.eqb_spec, abs_spec.
  change (Prim2SF infinity) with (S754_infinity false).
  destruct (Prim2SF a) as [s|[|]| |s m e]; simpl; intros E;
    try exact I; discriminate.
Qed.

Lemma gt_irrefl (a : float) : (a > a)%js = false.
Proof. simpl. rewrite ltb_spec. apply SFltb_irrefl. Qed.

Lemma gt_trans (a b c : float) :
  (a > b)%js = true -> (b > c)%js = true -> (a > c)%js = true.
Proof. simpl. rewrite !ltb_spec. intros Hab Hbc. eapply SFltb_trans; eauto. Qed.

Lemma gt_cotrans (a b c : float) :
  is_nan c = false ->
  (a > b)%js = true -> (a > c)%js = true \/ (c > b)%js = true.
Proof.
  simpl. rewrite !ltb_spec, is_nan_false. intros Hc Hab.
  destruct (SFltb_cotrans _ _ _ Hc Hab); auto.
Qed.

Lemma not_gt_leb (a b : float) :
  is_nan a = false -> is_nan b = false ->
  (a > b)%js = false -> (a <=? b)%float = true.
Proof.
  simpl. rewrite ltb_spec, leb_spec, !is_nan_false. apply SFltb_false_leb.
Qed.

End Order.

Section NotNan.

Variables prec emax : Z.

Lemma shr_1_nonneg mrs : (0 <= shr_m mrs)%Z -> (0 <= shr_m (shr_1 mrs))%Z.
Proof.
  destruct mrs as [m r s]. simpl. intros Hm.
  destruct m as [|[p|p|]|p]; simpl; lia.
Qed.

Lemma iter_pos_shr_1_nonneg p : forall mrs,
  (0 <= shr_m mrs)%Z -> (0 <= shr_m (SpecFloat.iter_pos shr_1 p mrs))%Z.
Proof.
  induction p as [p IH|p IH|]; intros mrs Hm; simpl.
  - apply IH, IH, shr_1_nonneg, Hm.
  - apply IH, IH, Hm.
  - apply shr_1_nonneg, Hm.
Qed.

Lemma shr_fexp_nonneg m e l :
  (0 <= m)%Z -> (0 <= shr_m (fst (shr_fexp prec emax m e l)))%Z.
Proof.
  intros Hm. unfold shr_fexp, shr.
  assert (H0 : (0 <= shr_m (shr_record_of_loc m l))%Z)
    by (destruct l as [|[]]; exact Hm).
  destruct (_ - e)%Z; simpl; auto using iter_pos_shr_1_nonneg.
Qed.

Lemma round_nearest_even_nonneg m l :
  (0 <= m)%Z -> (0 <= round_nearest_even m l)%Z.
Proof.
  intros Hm. unfold round_nearest_even.
  destruct l as [|[]]; try destruct (Z.even m); lia.
Qed.

(** Rounding a non-negative mantissa gives a zero, a finite number or an
    infinity (overflow). *)
Lemma binary_round_aux_not_nan sx mx ex lx :
  (0 <= mx)%Z -> binary_round_aux prec emax sx mx ex lx <> S754_nan.
Proof.
  intros Hm. unfold binary_round_aux.
  pose proof (shr_fexp_nonneg mx ex lx Hm) as H1.
  destruct (shr_fexp prec emax mx ex lx) as [mrs' e']. simpl in H1.
  pose proof (shr_fexp_nonneg _ e' loc_Exact
                (round_nearest_even_nonneg _ (loc_of_shr_record mrs') H1)) as H2.
  destruct (shr_fexp prec emax _ e' loc_Exact) as [mrs'' e'']. simpl in H2.
  destruct (shr_m mrs''); [discriminate| |lia].
  destruct (_ <=? _)%Z; discriminate.
Qed.

Lemma binary_normalize_not_nan m e szero :
  binary_normalize prec emax m e szero <> S754_nan.
Proof.
  unfold binary_normalize, binary_round.
  destruct m; [discriminate| |];
    destruct (shl_align _ _ _); apply binary_round_aux_not_nan; lia.
Qed.

Lemma SFsub_not_nan a b :
  sf_finite a -> b <> S754_nan -> SFsub prec emax a b <> S754_nan.
Proof.
  intros Ha Hb.
  destruct a as [sa|sa| |sa ma ea]; try contradiction;
    destruct b as [sb|sb| |sb mb eb]; try congruence;
    cbn [SFsub]; try discriminate;
    try (destruct sa, sb; discriminate).
  apply binary_normalize_not_nan.
Qed.

Lemma SFdiv_not_nan a sb mb eb :
  a <> S754_nan -> SFdiv prec emax a (S754_finite sb mb eb) <> S754_nan.
Proof.
  intros Ha.
  destruct a as [sa|sa| |sa ma ea]; try congruence; cbn [SFdiv]; try discriminate.
  unfold SFdiv_core_binary.
  match goal with |- context [Z.div_eucl ?n ?d] =>
    pose proof (Z.div_pos n d) as Hq;
    unfold Z.div in Hq; destruct (Z.div_eucl n d) as [q r]
  end.
  apply binary_round_aux_not_nan. apply Hq; [|lia].
  match goal with |- (0 <= match ?s with _ => _ end)%Z => destruct s eqn:Es end;
    try lia.
  apply Z.shiftl_nonneg. lia.
Qed.

End NotNan.

(** [(a - b) / 1e-8] is never NaN when [a] is finite and [b] is a number. *)
Lemma guarded_quotient_not_nan (a b : float) :
  is_finite a = true -> is_nan b = false ->
  is_nan ((a - b) / 1e-8)%float = false.
Proof.
  intros Ha Hb. apply is_nan_false.
  rewrite div_spec, sub_spec. unfold SF64div, SF64sub.
  assert (E : exists m e, Prim2SF 1e-8%float = S754_finite false m e)
    by (vm_compute; eauto).
  destruct E as (m & e & ->).
  apply SFdiv_not_nan, SFsub_not_nan.
  - apply is_finite_true, Ha.
  - apply is_nan_false, Hb.
Qed.

(* ------------------------------------------------------------------ *)
(** ** The arg-max loop *)

Section ArgMax.

Context {T : Type} `{JsNumber T}.
Variable probs : list T.

Local Open Scope js_scope.

(** What the proof needs of [>] on the entries of [probs]. *)
Hypothesis gt_irreflexive : forall a, In a probs -> (a > a) = false.
Hypothesis gt_transitive : forall a b c,
  In a probs -> In b probs -> In c probs ->
  (a > b) = true -> (b > c) = true -> (a > c) = true.
Hypothesis gt_cotransitive : forall a b c,
  In a probs -> In b probs -> In c probs ->
  (a > b) = true -> (a > c) = true \/ (c > b) = true.

(** Invariant of the loop when [i] has reached [k] and [maxIdx] is [m]:
    no entry before [k] beats entry [m], and entry [m] beats every entry
    before it. *)
Let scanned (k m : nat) : Prop :=
  forall j pj pm,
    (j < k)%nat -> nth_error probs j = Some pj -> nth_error probs m = Some pm ->
    (pj > pm) = false /\ ((j < m)%nat -> (pm > pj) = true).

Lemma argmax_scan : forall cnt k m,
  (m < k)%nat -> (k + cnt = List.length probs)%nat -> scanned k m ->
  let m' := fold_left (fun maxIdx i => if gt_at probs i maxIdx then i else maxIdx)
                      (seq k cnt) m in
  (m' < List.length probs)%nat /\ scanned (List.length probs) m'.
Proof.
  induction cnt as [|cnt IH]; intros k m Hmk Hlen Hinv; cbn [seq fold_left].
  - replace (List.length probs) with k by lia. split; [lia|exact Hinv].
  - assert (Hk : (k < List.length probs)%nat) by lia.
    destruct (nth_error probs k) as [pk|] eqn:Ek;
      [|apply nth_error_None in Ek; lia].
    destruct (nth_error probs m) as [pm|] eqn:Em;
      [|apply nth_error_None in Em; lia].
    pose proof (nth_error_In _ _ Ek) as Ink.
    pose proof (nth_error_In _ _ Em) as Inm.
    assert (Egt : gt_at probs k m = (pk > pm))
      by (unfold gt_at; rewrite Ek, Em; reflexivity).
    rewrite Egt.
    destruct (pk > pm) eqn:G; apply IH; try lia.
    + (* entry k is the new maximum *)
      intros j pj pm' Hj Ej Em'. rewrite Ek in Em'. injection Em' as <-.
      pose proof (nth_error_In _ _ Ej) as Inj.
      destruct (Nat.eq_dec j k) as [->|Hne].
      * rewrite Ek in Ej. injection Ej as <-.
        split; [apply gt_irreflexive; exact Ink|lia].
      * destruct (Hinv j pj pm ltac:(lia) Ej Em) as [Hle _].
        split.
        -- destruct (pj > pk) eqn:G'; [|reflexivity].
           rewrite (gt_transitive pj pk pm Inj Ink Inm G' G) in Hle. discriminate.
        -- intros _.
           destruct (gt_cotransitive pk pm pj Ink Inm Inj G) as [Hgt|Hgt];
             [exact Hgt|congruence].
    + (* entry m stays *)
      intros j pj pm' Hj Ej Em'. rewrite Em in Em'. injection Em' as <-.
      destruct (Nat.eq_dec j k) as [->|Hne].
      * rewrite Ek in Ej. injection Ej as <-. split; [exact G|lia].
      * apply (Hinv j pj pm); [lia|exact Ej|exact Em].
Qed.

(** On a non-empty array the loop ends on an entry that none beats and that
    beats every earlier entry. *)
Lemma argmax_first_of_max :
  probs <> [] ->
  (argmax probs < List.length probs)%nat
  /\ forall j pj pm,
       nth_error probs j = Some pj -> nth_error probs (argmax probs) = Some pm ->
       (pj > pm) = false /\ ((j < argmax probs)%nat -> (pm > pj) = true).
Proof.
  intros Hne. unfold argmax.
  assert (Hlen : (1 + (List.length probs - 1) = List.length probs)%nat).
  { destruct (List.length probs) eqn:E; [|lia].
    apply length_zero_iff_nil in E. congruence. }
  assert (H0 : scanned 1 0).
  { intros j pj pm Hj Ej Em. assert (j = 0)%nat as -> by lia.
    rewrite Ej in Em. injection Em as <-.
    split; [apply gt_irreflexive; eapply nth_error_In; eauto|lia]. }
  destruct (argmax_scan _ 1 0 ltac:(lia) Hlen H0) as [Hlt Hfin].
  split; [exact Hlt|].
  intros j pj pm Ej Em. apply (Hfin j pj pm); auto.
  apply nth_error_Some. congruence.
Qed.

End ArgMax.

(** C7. On a non-empty array of probabilities (numbers, not NaN) the loop
    selects the lowest index holding the maximum: every entry is [<=] the
    selected one and every entry before it is strictly smaller.  For
    [0.5, 0.5, 0.1] it selects index 0. *)
Theorem argmax_lowest_index_of_maximum (probs : list float) :
  probs <> [] ->
  (forall p, In p probs -> is_nan p = false) ->
  (exists pm,
     nth_error probs (argmax probs) = Some pm
     /\ (forall j p, nth_error probs j = Some p -> (p <=? pm)%float = true)
     /\ (forall j p, (j < argmax probs)%nat -> nth_error probs j = Some p ->
                     (p <? pm)%float = true))
  /\ argmax [0.5; 0.5; 0.1]%float = 0%nat.
Proof.
  intros Hne Hnum. split; [|reflexivity].
  destruct (argmax_first_of_max probs) as [Hlt Hmax]; auto.
  - intros a _. apply gt_irrefl.
  - intros a b c _ _ _. apply gt_trans.
  - intros a b c _ _ Hc. apply gt_cotrans, Hnum, Hc.
  - destruct (nth_error probs (argmax probs)) as [pm|] eqn:Em;
      [|apply nth_error_None in Em; lia].
    exists pm. split; [reflexivity|]. split.
    + intros j p Ej. destruct (Hmax j p pm Ej eq_refl) as [Hle _].
      apply not_gt_leb; auto; apply Hnum; eapply nth_error_In; eauto.
    + intros j p Hj Ej. destruct (Hmax j p pm Ej eq_refl) as [_ Hgt].
      exact (Hgt Hj).
Qed.

Lemma argmax_lowest_index_of_maximum_witness :
  exists pm,
    nth_error [0.1; 0.7; 0.7; 0.2]%float (argmax [0.1; 0.7; 0.7; 0.2]%float) = Some pm
    /\ (forall j p, nth_error [0.1; 0.7; 0.7; 0.2]%float j = Some p ->
                    (p <=? pm)%float = true)
    /\ (forall j p, (j < argmax [0.1; 0.7; 0.7; 0.2]%float)%nat ->
                    nth_error [0.1; 0.7; 0.7; 0.2]%float j = Some p ->
                    (p <? pm)%float = true).
Proof.
  apply (argmax_lowest_index_of_maximum [0.1; 0.7; 0.7; 0.2]%float).
  - discriminate.
  - intros p Hp. simpl in Hp.
    repeat (destruct Hp as [<-|Hp]; [reflexivity|]). contradiction.
Defined.

Example argmax_second_of_tie :
  argmax [0.1; 0.7; 0.7; 0.2]%float = 1%nat.
Proof. reflexivity. Qed.

(* ------------------------------------------------------------------ *)
(** ** The normalizer *)

Section Normalizer.

Context {T : Type} `{JsNumber T}.
Variables mean_arr scale_arr : list T.

Lemma standardize_loop_length (rest : list T) : forall i out,
  List.length (standardize_loop mean_arr scale_arr rest i out)
  = (List.length out + List.length rest)%nat.
Proof.
  induction rest as [|f rest IH]; intros i out; simpl.
  - lia.
  - rewrite IH, length_app. simpl. lia.
Qed.

(** What has been pushed stays where it is. *)
Lemma standardize_loop_pushed (rest : list T) : forall i out j,
  (j < List.length out)%nat ->
  nth_error (standardize_loop mean_arr scale_arr rest i out) j = nth_error out j.
Proof.
  induction rest as [|f rest IH]; intros i out j Hj; simpl.
  - reflexivity.
  - rewrite IH by (rewrite length_app; simpl; lia).
    apply nth_error_app1. exact Hj.
Qed.

(** Entry [j] of the remaining input lands at position [length out + j],
    computed with index [i + j]. *)
Lemma standardize_loop_nth (rest : list T) : forall i out j f,
  nth_error rest j = Some f ->
  nth_error (standardize_loop mean_arr scale_arr rest i out) (List.length out + j)
  = Some (standardize_at mean_arr scale_arr (i + j) f).
Proof.
  induction rest as [|f0 rest IH]; intros i out j f Ej.
  - destruct j; discriminate.
  - destruct j as [|j]; simpl in Ej |- *.
    + injection Ej as ->.
      rewrite standardize_loop_pushed by (rewrite length_app; simpl; lia).
      rewrite Nat.add_0_r, nth_error_app2, Nat.sub_diag, Nat.add_0_r by lia.
      reflexivity.
    + specialize (IH (S i) (out ++ [standardize_at mean_arr scale_arr i f0]) j f Ej).
      rewrite length_app in IH. simpl in IH.
      replace (List.length out + S j)%nat with (List.length out + 1 + j)%nat by lia.
      replace (i + S j)%nat with (S i + j)%nat by lia.
      exact IH.
Qed.

End Normalizer.

(** Entry by entry: [out[i] = (features[i] - (mean[i] || 0)) / (scale[i] || 1e-8)],
    at any number type, with the scaler loaded or not. *)
Lemma standardize_nth {T : Type} `{JsNumber T}
    (sc : option (ScalerParams T)) (features : list T) :
  exists out,
    standardize sc features = Ok out
    /\ List.length out = List.length features
    /\ forall i f, nth_error features i = Some f ->
         nth_error out i
         = Some (standardize_at
                   (match sc with Some p => scaler_mean p | None => [] end)
                   (match sc with Some p => scaler_scale p | None => [] end)
                   i f).
Proof.
  unfold standardize. eexists. split; [reflexivity|]. split.
  - rewrite standardize_loop_length. reflexivity.
  - intros i f Ei. apply (standardize_loop_nth _ _ features 0 [] i f Ei).
Qed.

(** [leb 1e-8 s]: [s] is not NaN, not zero and not below [1e-8]. *)
Lemma at_least_eps (s : float) :
  (1e-8 <=? s)%float = true ->
  is_nan s = false /\ is_zero s = false /\ (s <? 1e-8)%float = false.
Proof.
  unfold is_zero. rewrite leb_spec, ltb_spec, FloatAxioms.eqb_spec, is_nan_false.
  assert (E : exists m e, Prim2SF 1e-8%float = S754_finite false m e)
    by (vm_compute; eauto).
  destruct E as (m & e & ->).
  change (Prim2SF zero) with (S754_zero false).
  generalize (Prim2SF s). intros a Hle.
  unfold SFleb, SFltb, SFeqb in *.
  repeat split; sf_shapes; sf_compare.
Qed.

(** C4, as the code has it.  With the scaler loaded, output [i] is
    [(feature[i] - (mean[i] || 0)) / (scale[i] || 1e-8)].  The divisor is
    [scale[i]] itself whenever that is a number other than 0 (also when it
    is below 1e-8, or negative) and 1e-8 when [scale[i]] is 0, NaN or
    missing; it equals [max(scale[i], 1e-8)] when [scale[i] >= 1e-8] and
    when [scale[i]] is 0. *)
Theorem standardize_elementwise (sc : ScalerParams float)
    (features : list float) (i : nat) (f : float) :
  nth_error features i = Some f ->
  exists out,
    standardize (Some sc) features = Ok out
    /\ List.length out = List.length features
    /\ nth_error out i
       = Some ((f - num_or (nth_error (scaler_mean sc) i) 0)
               / num_or (nth_error (scaler_scale sc) i) 1e-8)%float
    /\ (forall s, nth_error (scaler_scale sc) i = Some s ->
          (is_zero s = false -> is_nan s = false ->
           num_or (nth_error (scaler_scale sc) i) 1e-8%float = s)
          /\ (is_zero s = true \/ is_nan s = true ->
              num_or (nth_error (scaler_scale sc) i) 1e-8%float = 1e-8%float)
          /\ ((1e-8 <=? s)%float = true \/ is_zero s = true ->
              num_or (nth_error (scaler_scale sc) i) 1e-8%float
              = fmax s 1e-8%float))
    /\ (nth_error (scaler_scale sc) i = None ->
        num_or (nth_error (scaler_scale sc) i) 1e-8%float = 1e-8%float).
Proof.
  intros Ei.
  destruct (standardize_nth (Some sc) features) as (out & Eout & Hlen & Hnth).
  exists out. split; [exact Eout|]. split; [exact Hlen|].
  split; [apply Hnth, Ei|]. split.
  - intros s Es. rewrite Es. unfold num_or. cbn [num_truthy float_JsNumber].
    split; [|split].
    + intros -> ->. reflexivity.
    + intros [-> | ->]; [reflexivity|]. rewrite orb_true_r. reflexivity.
    + intros [Hge | Hz].
      * destruct (at_least_eps s Hge) as (-> & -> & Hlt).
        unfold fmax. rewrite Hlt. reflexivity.
      * rewrite Hz. unfold fmax.
        replace (s <? 1e-8)%float with true; [reflexivity|].
        symmetry. revert Hz. unfold is_zero.
        rewrite ltb_spec, FloatAxioms.eqb_spec.
        assert (E : exists m e, Prim2SF 1e-8%float = S754_finite false m e)
          by (vm_compute; eauto).
        destruct E as (m & e & ->).
        change (Prim2SF zero) with (S754_zero false).
        generalize (Prim2SF s). intros a Hz.
        unfold SFltb, SFeqb in *. sf_shapes; sf_compare.
  - intros ->. reflexivity.
Qed.

Lemma standardize_elementwise_witness :
  exists out,
    standardize (Some {| scaler_mean := [1; 0]%float; scaler_scale := [2; 0]%float |})
                [3; 9.8]%float = Ok out
    /\ nth_error out 1 = Some (9.8 / 1e-8)%float.
Proof.
  destruct (standardize_elementwise
              {| scaler_mean := [1; 0]%float; scaler_scale := [2; 0]%float |}
              [3; 9.8]%float 1 9.8%float eq_refl)
    as (out & Eout & _ & Hnth & _).
  exists out. split; [exact Eout|].
  rewrite Hnth. vm_compute. reflexivity.
Defined.

(** The specification's formula and the code part ways below 1e-8: with
    [scale[0] = 2^-30] the code divides by [2^-30], the formula by
    [max(2^-30, 1e-8) = 1e-8]. *)
Lemma standardize_divides_by_small_scale :
  let sc := {| scaler_mean := repeat 0%float 7;
               scaler_scale := 0x1p-30%float :: repeat 1%float 6 |} in
  let features := [1; 0; 0; 0; 0; 0; 0]%float in
  (exists out, standardize (Some sc) features = Ok out
               /\ nth_error out 0 = Some 0x1p30%float)
  /\ spec_standardize_at 1 0 0x1p-30 = (1 / 1e-8)%float
  /\ spec_standardize_at 1 0 0x1p-30 <> 0x1p30%float.
Proof.
  split; [eexists; split; vm_compute; reflexivity|].
  split; [vm_compute; reflexivity|].
  intros E. apply (f_equal Prim2SF) in E. vm_compute in E. discriminate.
Qed.

Lemma num_or_not_nan (entry : option float) :
  is_nan (num_or entry 0%float) = false.
Proof.
  unfold num_or. destruct entry as [v|]; [|reflexivity].
  cbn [num_truthy float_JsNumber].
  destruct (is_zero v); [reflexivity|].
  destruct (is_nan v) eqn:E; [reflexivity|exact E].
Qed.

(** C9, as the code has it.  With [scale[i]] zero the divisor is 1e-8, so
    for a finite [feature[i]] the output [(feature[i] - (mean[i] || 0)) / 1e-8]
    is a number: never NaN.  It is not always finite: the quotient can
    overflow. *)
Theorem zero_scale_is_guarded (sc : ScalerParams float)
    (features : list float) (i : nat) (f s : float) :
  nth_error features i = Some f ->
  is_finite f = true ->
  nth_error (scaler_scale sc) i = Some s ->
  is_zero s = true ->
  exists out o,
    standardize (Some sc) features = Ok out
    /\ nth_error out i = Some o
    /\ o = ((f - num_or (nth_error (scaler_mean sc) i) 0) / 1e-8)%float
    /\ is_nan o = false.
Proof.
  intros Ei Hfin Es Hz.
  destruct (standardize_nth (Some sc) features) as (out & Eout & _ & Hnth).
  exists out. eexists. split; [exact Eout|]. split; [apply Hnth, Ei|].
  assert (Ed : num_or (nth_error (scaler_scale sc) i) num_eps = 1e-8%float).
  { rewrite Es. unfold num_or. cbn [num_truthy float_JsNumber].
    rewrite Hz. reflexivity. }
  unfold standardize_at. rewrite Ed.
  cbn [num_sub num_div num_zero float_JsNumber].
  split; [reflexivity|].
  apply guarded_quotient_not_nan; [exact Hfin|apply num_or_not_nan].
Qed.

Lemma zero_scale_is_guarded_witness :
  exists out o,
    standardize (Some {| scaler_mean := repeat 0%float 7;
                         scaler_scale := repeat 0%float 7 |})
                [0; 0; 9.8; 0; 0; 0; 9.8]%float = Ok out
    /\ nth_error out 2 = Some o
    /\ is_nan o = false.
Proof.
  destruct (zero_scale_is_guarded
              {| scaler_mean := repeat 0%float 7; scaler_scale := repeat 0%float 7 |}
              [0; 0; 9.8; 0; 0; 0; 9.8]%float 2 9.8%float 0%float
              eq_refl eq_refl eq_refl eq_refl)
    as (out & o & Eout & Eo & _ & Hnan).
  exists out, o. repeat split; assumption.
Defined.

(** A finite feature, a zero mean and a zero scale, and the output is
    Infinity: 1e301 / 1e-8 is beyond the binary64 range. *)
Lemma zero_scale_overflows :
  let sc := {| scaler_mean := repeat 0%float 7; scaler_scale := repeat 0%float 7 |} in
  let features := [1e301; 0; 0; 0; 0; 0; 0]%float in
  forallb is_finite features = true
  /\ exists out, standardize (Some sc) features = Ok out
                 /\ nth_error out 0 = Some infinity
                 /\ is_finite infinity = false.
Proof.
  split; [vm_compute; reflexivity|].
  eexists. repeat split; vm_compute; reflexivity.
Qed.

Section NormalizerTotal.

Context {T : Type} `{JsNumber T}.
Variable toLowerCase : string -> string.

Local Open Scope js_scope.

Lemma doPredictFromBuffer_not_loaded (st : PipelineState T) now :
  scaler st = None ->
  let st' := doPredictFromBuffer toLowerCase st now in
  calls st' = calls st /\ shown st' = shown st
  /\ (logs st' = logs st \/ logs st' = MsgSkippedNotLoaded).
Proof.
  intros Es. unfold doPredictFromBuffer. rewrite Es.
  destruct (model st); destruct (_ >? _)%Z; simpl; auto.
Qed.

(** C5, as the code has it.  [standardize] never fails.  It returns one
    output per feature; with no scaler loaded, and at every index past the
    end of the scaler arrays, the output is [(feature[i] - 0) / 1e-8].  A
    missing scaler is met earlier: [doPredictFromBuffer] returns before the
    [try] block, so no inference is run and nothing is shown; at most the
    not-loaded notice is written. *)
Theorem standardize_never_fails (sc : option (ScalerParams T))
    (features : list T) :
  exists out,
    standardize sc features = Ok out
    /\ List.length out = List.length features
    /\ (sc = None ->
        forall i f, nth_error features i = Some f ->
                    nth_error out i = Some ((f - num_zero) / num_eps))
    /\ (forall p i f,
          sc = Some p ->
          (List.length (scaler_mean p) <= i)%nat ->
          (List.length (scaler_scale p) <= i)%nat ->
          nth_error features i = Some f ->
          nth_error out i = Some ((f - num_zero) / num_eps))
    /\ (forall (st : PipelineState T) now,
          scaler st = None ->
          inferences (doPredictFromBuffer toLowerCase st now) = inferences st
          /\ shown (doPredictFromBuffer toLowerCase st now) = shown st
          /\ (logs (doPredictFromBuffer toLowerCase st now) = logs st
              \/ logs (doPredictFromBuffer toLowerCase st now) = MsgSkippedNotLoaded)).
Proof.
  destruct (standardize_nth sc features) as (out & Eout & Hlen & Hnth).
  exists out. split; [exact Eout|]. split; [exact Hlen|].
  split; [|split].
  - intros -> i f Ei. rewrite (Hnth i f Ei).
    unfold standardize_at. destruct i; reflexivity.
  - intros p i f -> Hm Hs Ei. rewrite (Hnth i f Ei).
    unfold standardize_at.
    apply nth_error_None in Hm, Hs. rewrite Hm, Hs. reflexivity.
  - intros st now Es.
    destruct (doPredictFromBuffer_not_loaded st now Es) as (Hc & Hsh & Hlogs).
    unfold inferences. rewrite Hc, Hsh. repeat split. exact Hlogs.
Qed.

End NormalizerTotal.

(** No scaler, and seven features against three scaler entries: both
    calls return a vector. *)
Lemma standardize_accepts_missing_scaler :
  standardize (@None (ScalerParams float)) [0; 0; 9.8; 0; 0; 0; 9.8]%float
  = Ok [0; 0; 9.8 / 1e-8; 0; 0; 0; 9.8 / 1e-8]%float
  /\ standardize (Some {| scaler_mean := [0; 0; 1.8]%float;
                          scaler_scale := [1; 1; 2]%float |})
                 [0; 0; 9.8; 0; 0; 0; 9.8]%float
     = Ok [0; 0; 4; 0; 0; 0; 9.8 / 1e-8]%float.
Proof. split; vm_compute; reflexivity. Qed.

(* ------------------------------------------------------------------ *)
(** ** The activity mapper *)

Section Mapper.

Variable toLowerCase : string -> string.

Lemma str_falsy_empty (s : string) : str_falsy s = true -> s = EmptyString.
Proof. unfold str_falsy. apply String.eqb_eq. Qed.

(** C6, as the code has it.  [mapToFive] lower-cases the label and applies
    these rules in order, first match wins: contains "sit" or contains
    "stand" gives 1; equal to "walking" gives 3; equal to "upstairs" or
    "downstairs" gives 3; equal to "jogging" or "running" gives 5; anything
    else, the empty label included, gives 3.  So "Sitting" gives 1,
    "JOGGING" 5, "Walking" 3, "Upstairs" 3, "banana" 3 and "" 3. *)
Theorem mapToFive_rules :
  toLowerCase EmptyString = EmptyString ->
  (forall lab, mapToFive toLowerCase lab = code_level toLowerCase lab)
  /\ mapToFive toLowerCase_ascii "Sitting" = 1%Z
  /\ mapToFive toLowerCase_ascii "JOGGING" = 5%Z
  /\ mapToFive toLowerCase_ascii "Walking" = 3%Z
  /\ mapToFive toLowerCase_ascii "Upstairs" = 3%Z
  /\ mapToFive toLowerCase_ascii "banana" = 3%Z
  /\ mapToFive toLowerCase_ascii "" = 3%Z.
Proof.
  intros Hempty. split; [|repeat split].
  intros lab. unfold mapToFive, code_level.
  destruct (str_falsy lab) eqn:E.
  - apply str_falsy_empty in E. subst lab. rewrite Hempty. reflexivity.
  - cbn [code_rules first_match]. unfold either, contains, equals.
    repeat match goal with
           | |- (if ?c then _ else _) = (if ?c then _ else _) => destruct c
           end; reflexivity.
Qed.

(** C10. Whatever the label, [mapToFive] returns 1, 3 or 5, never 2 or 4;
    the same holds of the second copy whenever it returns. *)
Theorem mapToFive_only_1_3_5 (lab : string) :
  (mapToFive toLowerCase lab = 1%Z
   \/ mapToFive toLowerCase lab = 3%Z
   \/ mapToFive toLowerCase lab = 5%Z)
  /\ mapToFive toLowerCase lab <> 2%Z
  /\ mapToFive toLowerCase lab <> 4%Z
  /\ forall v, Second.mapToFive toLowerCase (Some lab) = Ok v ->
               (v = 1%Z \/ v = 3%Z \/ v = 5%Z) /\ v <> 2%Z /\ v <> 4%Z.
Proof.
  assert (Hmain : mapToFive toLowerCase lab = 1%Z
                  \/ mapToFive toLowerCase lab = 3%Z
                  \/ mapToFive toLowerCase lab = 5%Z).
  { unfold mapToFive.
    repeat match goal with
           | |- context [if ?c then _ else _] => destruct c
           end; auto. }
  split; [exact Hmain|].
  split; [destruct Hmain as [-> | [-> | ->]]; discriminate|].
  split; [destruct Hmain as [-> | [-> | ->]]; discriminate|].
  intros v. unfold Second.mapToFive.
  repeat match goal with
         | |- context [if ?c then _ else _] => destruct c
         end;
    intros E; injection E as <-; repeat split; auto; discriminate.
Qed.

End Mapper.

Lemma mapToFive_rules_witness :
  mapToFive toLowerCase_ascii "Standing" = code_level toLowerCase_ascii "Standing"
  /\ mapToFive toLowerCase_ascii "Sitting" = 1%Z.
Proof.
  destruct (mapToFive_rules toLowerCase_ascii eq_refl) as (Hall & Hsit & _).
  split; [apply Hall|exact Hsit].
Defined.

(** A label that contains "jogging" without being equal to it: the
    specification's rule 4 gives 5, the code gives 3. *)
Lemma mapToFive_jogging_by_equality :
  mapToFive toLowerCase_ascii "slow jogging" = 3%Z
  /\ spec_level toLowerCase_ascii "slow jogging" = 5%Z.
Proof. split; reflexivity. Qed.

(* ------------------------------------------------------------------ *)
(** ** Failures during an inference *)

Section Failures.

Context {T : Type} `{JsNumber T}.
Variable toLowerCase : string -> string.

Lemma try_inference_throw (st : PipelineState T) m labs scaled e :
  standardize (scaler st) (computeFeatures (buffer st)) = Ok scaled ->
  m scaled = Throw e ->
  try_inference toLowerCase st m labs
  = set_logs (record_call st scaled) MsgPredictionFailed.
Proof.
  intros Hs Hm. unfold try_inference. rewrite Hs.
  unfold predict_and_show, bind. rewrite Hm. reflexivity.
Qed.

(** C8, as the code has it.  When a step of the inference throws (the
    classifier's call or the read of its output), the [catch] writes the
    failure text to [logs] and nothing propagates; the window is the one the
    sample was pushed to, the last result shown and the assets are
    untouched, and the next sample arriving 800 ms or more later starts a
    new inference. *)
Theorem thrown_inference_is_caught (st : PipelineState T) (s : Sample T)
    (now : Z) m sc labs e :
  model st = Some m -> scaler st = Some sc -> labels st = Some labs ->
  List.length (push_sample (buffer st) s) = SAMPLING_TARGET ->
  (now - lastPredTime st >= 800)%Z ->
  (forall scaled,
     standardize (Some sc) (computeFeatures (push_sample (buffer st) s)) = Ok scaled ->
     m scaled = Throw e) ->
  let st' := processSample toLowerCase st s now in
  logs st' = MsgPredictionFailed
  /\ buffer st' = push_sample (buffer st) s
  /\ shown st' = shown st
  /\ model st' = model st /\ scaler st' = scaler st /\ labels st' = labels st
  /\ lastPredTime st' = now
  /\ forall s2 now2,
       (now2 - now >= 800)%Z ->
       inferences (processSample toLowerCase st' s2 now2) = S (inferences st').
Proof.
  intros Em Es El Hfull Hdue Hthrow st'.
  assert (Hloaded : assets_loaded st)
    by (unfold assets_loaded; rewrite Em, Es, El; repeat split; discriminate).
  destruct (processSample_due_effect toLowerCase st s now Hloaded Hfull
              ltac:(lia)) as (_ & Ht & Hl' & Hb').
  fold st' in Ht, Hl', Hb'.
  destruct (standardize_nth (Some sc) (computeFeatures (push_sample (buffer st) s)))
    as (scaled & Escaled & _).
  assert (Est : st' = set_logs
                        (record_call
                           (set_lastPredTime
                              (set_buffer st (push_sample (buffer st) s)) now)
                           scaled)
                        MsgPredictionFailed).
  { subst st'. rewrite (processSample_due toLowerCase st s now m sc labs) by (auto; lia).
    apply try_inference_throw with (e := e).
    - cbn [scaler buffer set_lastPredTime set_buffer]. rewrite Es. exact Escaled.
    - apply Hthrow, Escaled. }
  split; [rewrite Est; reflexivity|].
  split; [rewrite Est; reflexivity|].
  split; [rewrite Est; reflexivity|].
  split; [rewrite Est; reflexivity|].
  split; [rewrite Est; reflexivity|].
  split; [rewrite Est; reflexivity|].
  split; [exact Ht|].
  intros s2 now2 Hnext.
  apply processSample_due_effect; auto.
  - apply push_sample_full, Hb'.
  - rewrite Ht. lia.
Qed.

End Failures.

Lemma thrown_inference_is_caught_witness :
  let st' := processSample toLowerCase_ascii (almost_full failing_classifier)
                           sample_still 1700000000000%Z in
  logs st' = MsgPredictionFailed
  /\ buffer st' = repeat sample_still 200
  /\ inferences (processSample toLowerCase_ascii st' sample_still 1700000000800%Z)
     = 2%nat.
Proof.
  intros st'.
  destruct (thrown_inference_is_caught toLowerCase_ascii
              (almost_full failing_classifier) sample_still 1700000000000%Z
              failing_classifier unit_scaler wisdm_labels PredictionRuntimeError
              eq_refl eq_refl eq_refl eq_refl ltac:(simpl; lia)
              (fun _ _ => eq_refl))
    as (Hlogs & Hbuf & _ & _ & _ & _ & _ & Hnext).
  subst st'.
  split; [exact Hlogs|]. split; [rewrite Hbuf; reflexivity|].
  rewrite (Hnext sample_still 1700000000800%Z ltac:(lia)).
  reflexivity.
Defined.

(** An output that is malformed without throwing is not noticed: an empty
    probability array against six labels is shown as a result (first
    label, no confidence), and [logs] keeps its text. *)
Lemma malformed_output_is_shown :
  let st' := processSample toLowerCase_ascii
                           (almost_full (constant_classifier []))
                           sample_still 1700000000000%Z in
  ~ well_formed_output wisdm_labels (@nil float)
  /\ logs st' = MsgCapturing
  /\ logs st' <> MsgPredictionFailed
  /\ shown st' = Some {| label := "Walking"; confidence := None; level := 3%Z |}.
Proof.
  split; [discriminate|].
  split; [vm_compute; reflexivity|].
  split; [vm_compute; discriminate|].
  vm_compute. reflexivity.
Qed.

(** The second copy has no try/catch: the exception leaves
    [doPredictFromBuffer] as a rejected promise and [logs] is not written;
    the window is untouched there too. *)
Lemma second_copy_rejection_unhandled :
  let st := set_buffer (almost_full failing_classifier)
                       (repeat sample_still 200) in
  let r := Second.doPredictFromBuffer toLowerCase_ascii st 1700000000000%Z in
  snd r = Some PredictionRuntimeError
  /\ logs (fst r) = MsgCapturing
  /\ buffer (fst r) = buffer st.
Proof. vm_compute. repeat split. Qed.

(* ================================================================== *)
(** * Further properties of the script *)

(* ------------------------------------------------------------------ *)
(** ** One arrival, case by case *)

Section Steps.

Context {T : Type} `{JsNumber T}.
Variable toLowerCase : string -> string.

(** The vector [doPredictFromBuffer] hands to the model in state [st]. *)
Let model_input (st : PipelineState T) : list T :=
  standardize_loop
    (match scaler st with Some p => scaler_mean p | None => [] end)
    (match scaler st with Some p => scaler_scale p | None => [] end)
    (computeFeatures (buffer st)) 0 [].

Lemma str_or_not_empty (entry : option string) :
  str_or entry "unknown" <> EmptyString.
Proof.
  unfold str_or. destruct entry as [s|]; [|discriminate].
  destruct (str_falsy s) eqn:E; [discriminate|].
  intros ->. discriminate.
Qed.

Lemma mapToFive_range (lab : string) :
  mapToFive toLowerCase lab = 1%Z
  \/ mapToFive toLowerCase lab = 3%Z
  \/ mapToFive toLowerCase lab = 5%Z.
Proof.
  unfold mapToFive.
  repeat match goal with
         | |- context [if ?c then _ else _] => destruct c
         end; auto.
Qed.

(** The [try] block either fails, leaving the failure text, or shows the
    result read off the probabilities. *)
Lemma try_inference_cases (st : PipelineState T) m labs :
  (exists e, m (model_input st) = Throw e
             /\ try_inference toLowerCase st m labs
                = set_logs (record_call st (model_input st)) MsgPredictionFailed)
  \/ (exists probs,
        m (model_input st) = Ok probs
        /\ try_inference toLowerCase st m labs
           = updateUI (record_call st (model_input st))
               (str_or (nth_error labs (argmax probs)) "unknown")
               (mapToFive toLowerCase (str_or (nth_error labs (argmax probs)) "unknown"))
               (nth_error probs (argmax probs))).
Proof.
  unfold try_inference, standardize, predict_and_show, bind.
  fold (model_input st).
  destruct (m (model_input st)) as [probs|e]; [right|left]; eauto.
Qed.

(** An arrival does one of three things: it only moves the window; it also
    writes the not-loaded notice; or it runs the [try] block. *)
Lemma processSample_cases (st : PipelineState T) s now :
  let st1 := set_buffer st (push_sample (buffer st) s) in
  processSample toLowerCase st s now = st1
  \/ (~ assets_loaded st
      /\ List.length (buffer st1) = SAMPLING_TARGET
      /\ (now - lastPredTime st > 2000)%Z
      /\ processSample toLowerCase st s now
         = set_lastPredTime (set_logs st1 MsgSkippedNotLoaded) now)
  \/ (exists m sc labs,
        model st = Some m /\ scaler st = Some sc /\ labels st = Some labs
        /\ List.length (buffer st1) = SAMPLING_TARGET
        /\ (now - lastPredTime st >= 800)%Z
        /\ processSample toLowerCase st s now
           = try_inference toLowerCase (set_lastPredTime st1 now) m labs).
Proof.
  intros st1. unfold processSample. fold st1.
  destruct (Nat.eqb_spec (List.length (buffer st1)) SAMPLING_TARGET) as [Hfull|Hnot];
    [|left; reflexivity].
  unfold doPredictFromBuffer.
  change (model st1) with (model st). change (scaler st1) with (scaler st).
  change (labels st1) with (labels st).
  change (lastPredTime st1) with (lastPredTime st).
  destruct (model st) as [m|] eqn:Em;
    [destruct (scaler st) as [sc|] eqn:Es;
     [destruct (labels st) as [labs|] eqn:El|]|].
  - destruct (Z.ltb_spec (now - lastPredTime st) 800); [left; reflexivity|].
    right. right. exists m, sc, labs. repeat split; auto; try lia.
  - destruct (Z.gtb_spec (now - lastPredTime st) 2000); [|left; reflexivity].
    right. left. unfold assets_loaded. rewrite Em, Es, El.
    repeat split; auto; try lia. intros (_ & _ & E). congruence.
  - destruct (Z.gtb_spec (now - lastPredTime st) 2000); [|left; reflexivity].
    right. left. unfold assets_loaded. rewrite Em, Es.
    repeat split; auto; try lia. intros (_ & E & _). congruence.
  - destruct (Z.gtb_spec (now - lastPredTime st) 2000); [|left; reflexivity].
    right. left. unfold assets_loaded. rewrite Em.
    repeat split; auto; try lia. intros (E & _). congruence.
Qed.

Lemma try_inference_assets (st : PipelineState T) m labs :
  model (try_inference toLowerCase st m labs) = model st
  /\ scaler (try_inference toLowerCase st m labs) = scaler st
  /\ labels (try_inference toLowerCase st m labs) = labels st.
Proof.
  destruct (try_inference_cases st m labs) as [(e & _ & ->)|(probs & _ & ->)];
    repeat split.
Qed.

(** No arrival changes which assets are loaded. *)
Lemma processSample_assets (st : PipelineState T) s now :
  model (processSample toLowerCase st s now) = model st
  /\ scaler (processSample toLowerCase st s now) = scaler st
  /\ labels (processSample toLowerCase st s now) = labels st.
Proof.
  destruct (processSample_cases st s now)
    as [-> | [(_ & _ & _ & ->) | (m & sc & labs & _ & _ & _ & _ & _ & ->)]];
    try (repeat split; reflexivity).
  exact (try_inference_assets
           (set_lastPredTime (set_buffer st (push_sample (buffer st) s)) now)
           m labs).
Qed.

Lemma processSample_keeps_loaded (st : PipelineState T) s now :
  assets_loaded st <-> assets_loaded (processSample toLowerCase st s now).
Proof.
  unfold assets_loaded.
  destruct (processSample_assets st s now) as (-> & -> & ->). reflexivity.
Qed.

End Steps.

(* ------------------------------------------------------------------ *)
(** ** Whole runs *)

Section Runs.

Context {T : Type} `{JsNumber T}.
Variable toLowerCase : string -> string.

Lemma run_cons (st : PipelineState T) a rest :
  run toLowerCase st (a :: rest)
  = run toLowerCase (processSample toLowerCase st (fst a) (snd a)) rest.
Proof. reflexivity. Qed.

Lemma run_app (st : PipelineState T) l1 l2 :
  run toLowerCase st (l1 ++ l2) = run toLowerCase (run toLowerCase st l1) l2.
Proof. unfold run. apply fold_left_app. Qed.

(** With an asset missing an arrival moves the window and, when the window
    is full and more than 2000 ms have passed since the mark, writes the
    notice and moves the mark. *)
Lemma processSample_not_loaded (st : PipelineState T) s now :
  ~ assets_loaded st ->
  let st1 := set_buffer st (push_sample (buffer st) s) in
  processSample toLowerCase st s now
  = if (List.length (buffer st1) =? SAMPLING_TARGET)%nat
       && (now - lastPredTime st >? 2000)%Z
    then set_lastPredTime (set_logs st1 MsgSkippedNotLoaded) now
    else st1.
Proof.
  intros Hnot st1. unfold processSample. fold st1.
  destruct (List.length (buffer st1) =? SAMPLING_TARGET)%nat; [|reflexivity].
  unfold doPredictFromBuffer.
  change (model st1) with (model st). change (scaler st1) with (scaler st).
  change (labels st1) with (labels st).
  change (lastPredTime st1) with (lastPredTime st).
  destruct (model st) eqn:Em; [destruct (scaler st) eqn:Es;
                               [destruct (labels st) eqn:El|]|];
    try reflexivity.
  exfalso. apply Hnot. unfold assets_loaded. rewrite Em, Es, El.
  repeat split; discriminate.
Qed.

(** X1. As long as the model, the scaler or the labels are missing, no
    sequence of samples runs an inference or shows a result; the assets stay
    missing and [logs] holds its old text or the not-loaded notice. *)
Theorem no_inference_until_loaded (arrivals : list (Sample T * Z)) :
  forall st : PipelineState T,
    ~ assets_loaded st ->
    inferences (run toLowerCase st arrivals) = inferences st
    /\ shown (run toLowerCase st arrivals) = shown st
    /\ ~ assets_loaded (run toLowerCase st arrivals)
    /\ (logs (run toLowerCase st arrivals) = logs st
        \/ logs (run toLowerCase st arrivals) = MsgSkippedNotLoaded).
Proof.
  induction arrivals as [|a rest IH]; intros st Hnot.
  - repeat split; auto.
  - rewrite run_cons.
    pose proof (processSample_not_loaded st (fst a) (snd a) Hnot) as Estep.
    cbv zeta in Estep.
    assert (Hnot' : ~ assets_loaded (processSample toLowerCase st (fst a) (snd a)))
      by (rewrite <- processSample_keeps_loaded; exact Hnot).
    destruct (IH _ Hnot') as (Hi & Hs & Hl & Hlogs).
    rewrite Hi, Hs. rewrite Estep in *.
    destruct (_ && _); repeat split; auto.
    destruct Hlogs as [-> | ->]; auto.
Qed.

(** X2. The not-loaded notice is throttled by the clock mark: a
    full-window arrival more than 2000 ms after the mark writes the notice
    and moves the mark to its own time, and arrivals no later than 2000 ms
    after the mark write nothing and leave the mark. *)
Theorem not_loaded_notice_throttled (st : PipelineState T) :
  ~ assets_loaded st ->
  (forall s now,
     List.length (push_sample (buffer st) s) = SAMPLING_TARGET ->
     (now - lastPredTime st > 2000)%Z ->
     logs (processSample toLowerCase st s now) = MsgSkippedNotLoaded
     /\ lastPredTime (processSample toLowerCase st s now) = now)
  /\ (forall arrivals,
        (forall a, In a arrivals -> (snd a - lastPredTime st <= 2000)%Z) ->
        logs (run toLowerCase st arrivals) = logs st
        /\ lastPredTime (run toLowerCase st arrivals) = lastPredTime st).
Proof.
  intros Hnot. split.
  - intros s now Hfull Hlate.
    rewrite (processSample_not_loaded st s now Hnot). simpl.
    rewrite Hfull, Nat.eqb_refl.
    destruct (Z.gtb_spec (now - lastPredTime st) 2000); [split; reflexivity|lia].
  - intros arrivals. revert st Hnot.
    induction arrivals as [|a rest IH]; intros st Hnot Hnear; [split; reflexivity|].
    rewrite run_cons.
    pose proof (processSample_not_loaded st (fst a) (snd a) Hnot) as Estep.
    cbv zeta in Estep.
    assert (Ea : processSample toLowerCase st (fst a) (snd a)
                 = set_buffer st (push_sample (buffer st) (fst a))).
    { rewrite Estep.
      destruct (Z.gtb_spec (snd a - lastPredTime st) 2000) as [Hgt|_];
        [|rewrite andb_false_r; reflexivity].
      specialize (Hnear a (or_introl eq_refl)). lia. }
    assert (Hnot' : ~ assets_loaded (processSample toLowerCase st (fst a) (snd a)))
      by (rewrite <- processSample_keeps_loaded; exact Hnot).
    rewrite Ea in *.
    destruct (IH _ Hnot') as [Hl Ht].
    + intros b Hb. simpl. apply Hnear. right. exact Hb.
    + rewrite Hl, Ht. split; reflexivity.
Qed.

(** With the assets loaded an arrival either runs nothing and leaves the
    mark, or runs one inference, 800 ms or more after the mark, and moves
    the mark to its own time. *)
Lemma processSample_loaded_step (st : PipelineState T) s now :
  assets_loaded st ->
  let st' := processSample toLowerCase st s now in
  (inferences st' = inferences st /\ lastPredTime st' = lastPredTime st)
  \/ (inferences st' = S (inferences st) /\ lastPredTime st' = now
      /\ (now - lastPredTime st >= 800)%Z).
Proof.
  intros Hloaded st'. subst st'.
  destruct (processSample_cases toLowerCase st s now)
    as [-> | [(Hnot & _) | (m & sc & labs & _ & _ & _ & _ & Hdue & ->)]].
  - left. split; reflexivity.
  - contradiction.
  - right.
    match goal with |- context [try_inference ?f ?a ?b ?c] =>
      destruct (try_inference_effect f a b c) as (Hi & Ht & _) end.
    rewrite Hi, Ht. repeat split. exact Hdue.
Qed.

Lemma quiet_after_mark (arrivals : list (Sample T * Z)) :
  forall st : PipelineState T,
    assets_loaded st ->
    (forall a, In a arrivals -> (snd a - lastPredTime st < 800)%Z) ->
    inferences (run toLowerCase st arrivals) = inferences st
    /\ lastPredTime (run toLowerCase st arrivals) = lastPredTime st.
Proof.
  induction arrivals as [|a rest IH]; intros st Hloaded Hnear; [split; reflexivity|].
  rewrite run_cons.
  pose proof (Hnear a (or_introl eq_refl)) as Ha.
  destruct (processSample_loaded_step st (fst a) (snd a) Hloaded)
    as [[Hi Ht] | (_ & _ & Hdue)]; [|lia].
  destruct (IH (processSample toLowerCase st (fst a) (snd a))) as [Hi' Ht'].
  - apply processSample_keeps_loaded, Hloaded.
  - intros b Hb. rewrite Ht. apply Hnear. right. exact Hb.
  - rewrite Hi', Ht', Hi, Ht. split; reflexivity.
Qed.

(** X3. However many samples arrive within a span shorter than 800 ms, at
    most one of them runs an inference. *)
Theorem at_most_one_inference_per_800ms (arrivals : list (Sample T * Z)) :
  forall (st : PipelineState T) (t0 : Z),
    assets_loaded st ->
    (forall a, In a arrivals -> (t0 <= snd a < t0 + 800)%Z) ->
    (inferences (run toLowerCase st arrivals) <= S (inferences st))%nat.
Proof.
  induction arrivals as [|a rest IH]; intros st t0 Hloaded Hspan.
  - simpl. lia.
  - rewrite run_cons.
    pose proof (Hspan a (or_introl eq_refl)) as Ha.
    assert (Hloaded' : assets_loaded (processSample toLowerCase st (fst a) (snd a)))
      by (apply processSample_keeps_loaded, Hloaded).
    destruct (processSample_loaded_step st (fst a) (snd a) Hloaded)
      as [[Hi _] | (Hi & Ht & _)].
    + rewrite <- Hi. apply (IH _ t0 Hloaded').
      intros b Hb. apply Hspan. right. exact Hb.
    + destruct (quiet_after_mark rest _ Hloaded') as [Hq _].
      * intros b Hb. rewrite Ht.
        pose proof (Hspan b (or_intror Hb)). lia.
      * rewrite Hq, Hi. lia.
Qed.

Lemma run_short_window (arrivals : list (Sample T * Z)) :
  forall st : PipelineState T,
    (List.length (buffer st) + List.length arrivals < SAMPLING_TARGET)%nat ->
    run toLowerCase st arrivals
    = set_buffer st (buffer st ++ map fst arrivals).
Proof.
  induction arrivals as [|a rest IH]; intros st Hshort.
  - simpl. rewrite app_nil_r. destruct st; reflexivity.
  - rewrite run_cons. simpl in Hshort.
    assert (Epush : push_sample (buffer st) (fst a) = buffer st ++ [fst a]).
    { unfold push_sample. rewrite length_app. simpl.
      destruct (Nat.ltb_spec SAMPLING_TARGET (List.length (buffer st) + 1));
        [lia|reflexivity]. }
    assert (Estep : processSample toLowerCase st (fst a) (snd a)
                    = set_buffer st (buffer st ++ [fst a])).
    { unfold processSample. rewrite Epush. simpl.
      rewrite length_app. simpl.
      destruct (Nat.eqb_spec (List.length (buffer st) + 1) SAMPLING_TARGET);
        [lia|reflexivity]. }
    rewrite Estep, IH.
    + simpl. rewrite <- app_assoc. reflexivity.
    + simpl. rewrite length_app. simpl. lia.
Qed.

(** X4. Until the window has 200 samples an arrival only appends to it:
    no inference, no notice, the clock mark stays. *)
Theorem short_window_only_buffers (arrivals : list (Sample T * Z))
    (st : PipelineState T) :
  (List.length (buffer st) + List.length arrivals < SAMPLING_TARGET)%nat ->
  run toLowerCase st arrivals = set_buffer st (buffer st ++ map fst arrivals)
  /\ inferences (run toLowerCase st arrivals) = inferences st
  /\ logs (run toLowerCase st arrivals) = logs st
  /\ lastPredTime (run toLowerCase st arrivals) = lastPredTime st.
Proof.
  intros Hshort. rewrite (run_short_window arrivals st Hshort).
  repeat split.
Qed.

(** X5. Assets loaded and the window empty: the first 199 samples are
    only buffered, and the 200th, arriving 800 ms or more after the mark,
    runs the first inference on the standardised features of those 200
    samples.  When the model answers, the page shows the label at the
    arg-max index (or "unknown"), its level, and the probability at that
    index; [logs] is not written. *)
Theorem first_inference_on_200th_sample (st : PipelineState T)
    (first : list (Sample T * Z)) (s : Sample T) (now : Z)
    m sc labs probs :
  model st = Some m -> scaler st = Some sc -> labels st = Some labs ->
  buffer st = [] ->
  List.length first = 199%nat ->
  (now - lastPredTime st >= 800)%Z ->
  (forall scaled,
     standardize (Some sc) (computeFeatures (map fst first ++ [s])) = Ok scaled ->
     m scaled = Ok probs) ->
  let st' := run toLowerCase st (first ++ [(s, now)]) in
  let lab := str_or (nth_error labs (argmax probs)) "unknown" in
  inferences (run toLowerCase st first) = inferences st
  /\ inferences st' = S (inferences st)
  /\ (exists scaled,
        standardize (Some sc) (computeFeatures (map fst first ++ [s])) = Ok scaled
        /\ calls st' = calls st ++ [scaled])
  /\ buffer st' = map fst first ++ [s]
  /\ lastPredTime st' = now
  /\ logs st' = logs st
  /\ shown st' = Some {| label := lab;
                         confidence := nth_error probs (argmax probs);
                         level := mapToFive toLowerCase lab |}.
Proof.
  intros Em Es El Hempty Hlen Hdue Hanswer st' lab.
  assert (Ewarm : run toLowerCase st first = set_buffer st (map fst first)).
  { rewrite run_short_window; rewrite Hempty; [reflexivity|].
    simpl. rewrite Hlen. unfold SAMPLING_TARGET. lia. }
  assert (Epush : push_sample (map fst first) s = map fst first ++ [s]).
  { unfold push_sample. rewrite length_app, length_map, Hlen. reflexivity. }
  assert (Est : st' = try_inference toLowerCase
                        (set_lastPredTime (set_buffer st (map fst first ++ [s])) now)
                        m labs).
  { subst st'. rewrite run_app, Ewarm. simpl.
    rewrite (processSample_due toLowerCase _ s now m sc labs); simpl; auto.
    - rewrite Epush. reflexivity.
    - rewrite Epush, length_app, length_map, Hlen. reflexivity.
    - lia. }
  split; [rewrite Ewarm; reflexivity|].
  destruct (try_inference_cases toLowerCase
              (set_lastPredTime (set_buffer st (map fst first ++ [s])) now) m labs)
    as [(e & Ethrow & _) | (probs' & Eok & Etry)];
    cbn [scaler buffer set_lastPredTime set_buffer] in *; rewrite Es in *.
  - rewrite (Hanswer _ eq_refl) in Ethrow. discriminate.
  - rewrite (Hanswer _ eq_refl) in Eok. injection Eok as <-.
    rewrite Est, Etry. unfold inferences. simpl.
    split; [rewrite length_app; simpl; lia|].
    split; [eexists; split; reflexivity|].
    repeat split.
Qed.

Lemma processSample_shown (st : PipelineState T) s now :
  (forall r, shown st = Some r -> result_consistent toLowerCase r) ->
  forall r, shown (processSample toLowerCase st s now) = Some r ->
            result_consistent toLowerCase r.
Proof.
  intros Hinv r.
  destruct (processSample_cases toLowerCase st s now)
    as [-> | [(_ & _ & _ & ->) | (m & sc & labs & _ & _ & _ & _ & _ & ->)]];
    try (simpl; apply Hinv).
  match goal with |- context [try_inference ?f ?a ?b ?c] =>
    destruct (try_inference_cases f a b c) as [(e & _ & ->) | (probs & _ & ->)] end.
  - simpl. apply Hinv.
  - simpl. intros E. injection E as <-.
    unfold result_consistent. simpl.
    split; [reflexivity|]. split; [apply str_or_not_empty|apply mapToFive_range].
Qed.

(** X6. Every result the page ever shows has a non-empty label and the
    level that [mapToFive] gives that label, one of 1, 3 and 5. *)
Theorem shown_results_consistent (arrivals : list (Sample T * Z)) :
  forall st : PipelineState T,
    (forall r, shown st = Some r -> result_consistent toLowerCase r) ->
    forall r, shown (run toLowerCase st arrivals) = Some r ->
              result_consistent toLowerCase r.
Proof.
  induction arrivals as [|a rest IH]; intros st Hinv; [exact Hinv|].
  rewrite run_cons. apply IH. apply processSample_shown. exact Hinv.
Qed.

Lemma processSample_calls (st : PipelineState T) s now :
  calls (processSample toLowerCase st s now) = calls st
  \/ exists input,
       List.length input = 7%nat
       /\ calls (processSample toLowerCase st s now) = calls st ++ [input].
Proof.
  destruct (processSample_cases toLowerCase st s now)
    as [-> | [(_ & _ & _ & ->) | (m & sc & labs & _ & _ & _ & _ & _ & ->)]];
    try (left; reflexivity).
  right.
  match goal with |- context [try_inference ?f ?a ?b ?c] =>
    destruct (try_inference_cases f a b c) as [(e & _ & ->) | (probs & _ & ->)] end;
    eexists; (split; [|reflexivity]);
    rewrite standardize_loop_length; reflexivity.
Qed.

(** X7. The model is only ever called with a vector of seven numbers. *)
Theorem model_inputs_have_seven_entries (arrivals : list (Sample T * Z)) :
  forall st : PipelineState T,
    (forall input, In input (calls st) -> List.length input = 7%nat) ->
    forall input, In input (calls (run toLowerCase st arrivals)) ->
                  List.length input = 7%nat.
Proof.
  induction arrivals as [|a rest IH]; intros st Hinv; [exact Hinv|].
  rewrite run_cons. apply IH. intros input Hin.
  destruct (processSample_calls st (fst a) (snd a)) as [E | (c & Hc & E)];
    rewrite E in Hin; [apply Hinv, Hin|].
  apply in_app_or in Hin. destruct Hin as [Hin | [<- | []]];
    [apply Hinv, Hin | exact Hc].
Qed.

End Runs.

Lemma initial_state_not_loaded : ~ assets_loaded (@initial_state float).
Proof. intros (Hm & _). apply Hm. reflexivity. Qed.

Lemma no_inference_until_loaded_witness :
  inferences (run toLowerCase_ascii (@initial_state float)
                  (repeat (sample_still, 5000%Z) 250)) = 0%nat
  /\ shown (run toLowerCase_ascii (@initial_state float)
                (repeat (sample_still, 5000%Z) 250)) = None.
Proof.
  destruct (no_inference_until_loaded toLowerCase_ascii
              (repeat (sample_still, 5000%Z) 250) initial_state
              initial_state_not_loaded) as (Hi & Hs & _).
  split; [exact Hi|exact Hs].
Defined.

Lemma not_loaded_notice_throttled_witness :
  logs (processSample toLowerCase_ascii
          (set_buffer (@initial_state float) (repeat sample_still 199))
          sample_still 2001%Z) = MsgSkippedNotLoaded
  /\ logs (run toLowerCase_ascii
             (set_buffer (@initial_state float) (repeat sample_still 199))
             (repeat (sample_still, 1500%Z) 5)) = MsgNone.
Proof.
  destruct (not_loaded_notice_throttled toLowerCase_ascii
              (set_buffer (@initial_state float) (repeat sample_still 199))
              initial_state_not_loaded) as [Hlate Hnear].
  split.
  - apply (Hlate sample_still 2001%Z eq_refl). simpl. lia.
  - apply (Hnear (repeat (sample_still, 1500%Z) 5)).
    intros a Ha. apply repeat_spec in Ha. subst a. simpl. lia.
Defined.

Lemma at_most_one_inference_per_800ms_witness :
  (inferences (run toLowerCase_ascii
                 (almost_full (constant_classifier [0.1; 0.7; 0.2]%float))
                 (repeat (sample_still, 1700000000100%Z) 5)) <= 1)%nat.
Proof.
  apply (at_most_one_inference_per_800ms toLowerCase_ascii
           (repeat (sample_still, 1700000000100%Z) 5)
           (almost_full (constant_classifier [0.1; 0.7; 0.2]%float))
           1700000000000%Z (almost_full_loaded _)).
  intros a Ha. apply repeat_spec in Ha. subst a. simpl. lia.
Defined.

Lemma short_window_only_buffers_witness :
  run toLowerCase_ascii (loaded_empty (constant_classifier [0.1; 0.7; 0.2]%float))
      (repeat (sample_still, 1700000000000%Z) 10)
  = set_buffer (loaded_empty (constant_classifier [0.1; 0.7; 0.2]%float))
               (repeat sample_still 10).
Proof.
  apply (short_window_only_buffers toLowerCase_ascii
           (repeat (sample_still, 1700000000000%Z) 10)
           (loaded_empty (constant_classifier [0.1; 0.7; 0.2]%float))).
  simpl. unfold SAMPLING_TARGET. lia.
Defined.

Lemma first_inference_on_200th_sample_witness :
  let st' := run toLowerCase_ascii
               (loaded_empty (constant_classifier [0.1; 0.7; 0.2]%float))
               (repeat (sample_still, 1000%Z) 199
                ++ [(sample_still, 1700000000000%Z)]) in
  inferences st' = 1%nat
  /\ shown st' = Some {| label := "Jogging"; confidence := Some 0.7%float;
                         level := 5%Z |}.
Proof.
  destruct (first_inference_on_200th_sample toLowerCase_ascii
              (loaded_empty (constant_classifier [0.1; 0.7; 0.2]%float))
              (repeat (sample_still, 1000%Z) 199) sample_still 1700000000000%Z
              (constant_classifier [0.1; 0.7; 0.2]%float) unit_scaler wisdm_labels
              [0.1; 0.7; 0.2]%float
              eq_refl eq_refl eq_refl eq_refl eq_refl ltac:(simpl; lia)
              (fun _ _ => eq_refl))
    as (_ & Hi & _ & _ & _ & _ & Hshown).
  split; [exact Hi|exact Hshown].
Defined.

Lemma shown_results_consistent_witness :
  exists r,
    shown (run toLowerCase_ascii
             (loaded_empty (constant_classifier [0.1; 0.7; 0.2]%float))
             (repeat (sample_still, 1700000000000%Z) 200)) = Some r
    /\ result_consistent toLowerCase_ascii r.
Proof.
  eexists. split; [vm_compute; reflexivity|].
  apply (shown_results_consistent toLowerCase_ascii
           (repeat (sample_still, 1700000000000%Z) 200)
           (loaded_empty (constant_classifier [0.1; 0.7; 0.2]%float))).
  - intros r E. discriminate E.
  - vm_compute. reflexivity.
Defined.

Lemma model_inputs_have_seven_entries_witness :
  Forall (fun input => List.length input = 7%nat)
    (calls (run toLowerCase_ascii
              (loaded_empty (constant_classifier [0.1; 0.7; 0.2]%float))
              (repeat (sample_still, 1700000000000%Z) 200))).
Proof.
  apply Forall_forall.
  apply (model_inputs_have_seven_entries toLowerCase_ascii
           (repeat (sample_still, 1700000000000%Z) 200)
           (loaded_empty (constant_classifier [0.1; 0.7; 0.2]%float))).
  intros input [].
Defined.

(* ------------------------------------------------------------------ *)
(** ** The arg-max index, whatever the array holds *)

Section ArgMaxBounds.

Context {T : Type} `{JsNumber T}.

(** The loop ends on its start index or on an index whose entry won a
    comparison. *)
Lemma argmax_fold_choice (probs : list T) (l : list nat) : forall m,
  let r := fold_left (fun maxIdx i => if gt_at probs i maxIdx then i else maxIdx) l m in
  r = m \/ (In r l /\ exists j, gt_at probs r j = true).
Proof.
  induction l as [|i l IH]; intros m; cbn [fold_left]; [left; reflexivity|].
  destruct (IH (if gt_at probs i m then i else m)) as [E | (Hin & j & Hj)].
  - destruct (gt_at probs i m) eqn:G.
    + right. cbv zeta in E. rewrite E. split; [left; reflexivity|eauto].
    + left. exact E.
  - right. split; [right; exact Hin|eauto].
Qed.

Lemma gt_at_defined (probs : list T) i j :
  gt_at probs i j = true ->
  exists a b, nth_error probs i = Some a /\ nth_error probs j = Some b
              /\ num_gt a b = true.
Proof.
  unfold gt_at.
  destruct (nth_error probs i) as [a|]; [|discriminate].
  destruct (nth_error probs j) as [b|]; [|discriminate].
  eauto.
Qed.

Lemma argmax_defined (probs : list T) :
  probs <> [] -> exists p, nth_error probs (argmax probs) = Some p.
Proof.
  intros Hne. unfold argmax.
  destruct (argmax_fold_choice probs (seq 1 (List.length probs - 1)) 0)
    as [E | (_ & j & Hj)]; cbv zeta in *.
  - rewrite E. destruct probs as [|p rest]; [congruence|]. exists p. reflexivity.
  - destruct (gt_at_defined _ _ _ Hj) as (a & _ & Ea & _). eauto.
Qed.

(** X8. On a non-empty array the selected index is inside the array,
    whatever the entries are (NaN included): the confidence shown is an
    entry of the array.  On the empty array the index is 0. *)
Theorem argmax_index_in_bounds (probs : list T) :
  (probs <> [] ->
   (argmax probs < List.length probs)%nat
   /\ exists p, nth_error probs (argmax probs) = Some p)
  /\ argmax (@nil T) = 0%nat.
Proof.
  split; [|reflexivity].
  intros Hne. destruct (argmax_defined probs Hne) as (p & Ep).
  split; [|eauto]. apply nth_error_Some. congruence.
Qed.

Variable toLowerCase : string -> string.

(** X9. When the model answers, the label shown is the entry of [labels]
    at the arg-max index when that entry exists and is not empty, and
    "unknown" when it is missing or empty; with at least as many labels as
    probabilities, none of them empty, it is therefore always the entry of
    [labels] at that index.  The confidence is the probability at that
    index. *)
Theorem shown_label_comes_from_labels (st : PipelineState T)
    (m : Classifier T) (labs : list string) (scaled probs : list T) :
  m scaled = Ok probs ->
  exists r,
    predict_and_show toLowerCase st m labs scaled = Ok (set_shown st r)
    /\ confidence r = nth_error probs (argmax probs)
    /\ (forall s, nth_error labs (argmax probs) = Some s ->
                  s <> EmptyString -> label r = s)
    /\ (nth_error labs (argmax probs) = None
        \/ nth_error labs (argmax probs) = Some EmptyString ->
        label r = "unknown"%string)
    /\ (In (label r) labs \/ label r = "unknown"%string)
    /\ (probs <> [] ->
        (List.length probs <= List.length labs)%nat ->
        ~ In EmptyString labs ->
        nth_error labs (argmax probs) = Some (label r)
        /\ exists p, confidence r = Some p).
Proof.
  intros Em. unfold predict_and_show, bind. rewrite Em.
  eexists. split; [reflexivity|]. cbn [confidence label].
  split; [reflexivity|].
  assert (Hsome : forall s, nth_error labs (argmax probs) = Some s ->
                            s <> EmptyString ->
                            str_or (nth_error labs (argmax probs)) "unknown" = s).
  { intros s Es Hs. rewrite Es. unfold str_or, str_falsy.
    destruct (String.eqb_spec s EmptyString); [contradiction|reflexivity]. }
  split; [exact Hsome|]. split; [|split].
  - intros [E | E]; rewrite E; reflexivity.
  - unfold str_or.
    destruct (nth_error labs (argmax probs)) as [s|] eqn:Es; [|right; reflexivity].
    destruct (str_falsy s); [right; reflexivity|].
    left. eapply nth_error_In. exact Es.
  - intros Hne Hcover Hnonempty.
    destruct (argmax_defined probs Hne) as (p & Ep).
    assert (Hlt : (argmax probs < List.length labs)%nat).
    { assert (argmax probs < List.length probs)%nat
        by (apply nth_error_Some; congruence). lia. }
    destruct (nth_error labs (argmax probs)) as [s|] eqn:Es;
      [|apply nth_error_None in Es; lia].
    split; [|eauto].
    rewrite (Hsome s eq_refl); [reflexivity|].
    intros ->. apply Hnonempty. eapply nth_error_In. exact Es.
Qed.

End ArgMaxBounds.

Lemma argmax_index_in_bounds_witness :
  (argmax [nan; 0.7; nan]%float < 3)%nat.
Proof.
  apply (argmax_index_in_bounds [nan; 0.7; nan]%float). discriminate.
Defined.

Lemma shown_label_comes_from_labels_witness :
  exists r,
    predict_and_show toLowerCase_ascii
      (loaded_empty (constant_classifier [0.1; 0.9]%float))
      (constant_classifier [0.1; 0.9]%float) ["Walking"%string] [] = Ok
      (set_shown (loaded_empty (constant_classifier [0.1; 0.9]%float)) r)
    /\ label r = "unknown"%string.
Proof.
  destruct (shown_label_comes_from_labels toLowerCase_ascii
              (loaded_empty (constant_classifier [0.1; 0.9]%float))
              (constant_classifier [0.1; 0.9]%float) ["Walking"%string]
              [] [0.1; 0.9]%float eq_refl)
    as (r & Er & _ & _ & Hmissing & _).
  exists r. split; [exact Er|].
  apply Hmissing. left. reflexivity.
Defined.

Lemma is_nan_true (a : float) : is_nan a = true -> Prim2SF a = S754_nan.
Proof.
  intros E. destruct (Prim2SF a) as [s|s| |s m e] eqn:Ea; [| |reflexivity|];
    (assert (N : is_nan a = false) by (apply is_nan_false; rewrite Ea; discriminate));
    congruence.
Qed.

Lemma nothing_beats_nan (probs : list float) (l : list nat) (m : nat) (p : float) :
  nth_error probs m = Some p -> is_nan p = true ->
  fold_left (fun maxIdx i => if gt_at probs i maxIdx then i else maxIdx) l m = m.
Proof.
  intros Em Hnan. induction l as [|i l IH]; cbn [fold_left]; [reflexivity|].
  replace (gt_at probs i m) with false; [exact IH|].
  unfold gt_at. rewrite Em. destruct (nth_error probs i) as [a|]; [|reflexivity].
  simpl. rewrite ltb_spec, (is_nan_true p Hnan). reflexivity.
Qed.

(** X10. NaN among the probabilities: a NaN in first place is selected,
    whatever follows it, since no entry compares greater than NaN; in any
    later place a NaN is never selected. *)
Theorem argmax_and_nan (probs : list float) :
  (forall p0 rest, probs = p0 :: rest -> is_nan p0 = true ->
                   argmax probs = 0%nat)
  /\ (forall p, (0 < argmax probs)%nat ->
                nth_error probs (argmax probs) = Some p ->
                is_nan p = false).
Proof.
  split.
  - intros p0 rest -> Hnan. unfold argmax.
    apply (nothing_beats_nan _ _ 0 p0); [reflexivity|exact Hnan].
  - intros p Hpos Ep. unfold argmax in *.
    destruct (argmax_fold_choice probs (seq 1 (List.length probs - 1)) 0)
      as [E | (_ & j & Hj)]; cbv zeta in *; [lia|].
    destruct (gt_at_defined _ _ _ Hj) as (a & b & Ea & _ & Hgt).
    rewrite Ea in Ep. injection Ep as <-.
    simpl in Hgt. rewrite ltb_spec in Hgt.
    apply is_nan_false. intros N. rewrite N in Hgt.
    unfold SFltb in Hgt. destruct (Prim2SF b); discriminate.
Qed.

Lemma argmax_and_nan_witness :
  argmax [nan; 0.9; 0.1]%float = 0%nat
  /\ is_nan 0.9%float = false.
Proof.
  split.
  - apply (argmax_and_nan [nan; 0.9; 0.1]%float) with (p0 := nan) (rest := [0.9; 0.1]%float);
      reflexivity.
  - apply (proj2 (argmax_and_nan [0.1; 0.9; nan]%float) 0.9%float);
      [vm_compute; lia|reflexivity].
Defined.

(* ------------------------------------------------------------------ *)
(** ** Loading the assets *)

Section Loading.

Context {T : Type} `{JsNumber T}.

(** X11. [loadAssets] touches nothing but the three assets and [logs].
    It ends with the ready text exactly when none of the three fetches
    throws, and with the failure text otherwise; what was fetched before the
    failing step stays assigned, as parsed.  Started from the initial state,
    the three assets are loaded exactly when none of the fetches throws and
    both JSON files hold a truthy value: a file that parses to null gets the
    ready text and leaves the pipeline without that asset. *)
Theorem loadAssets_outcome (st : PipelineState T)
    (fetched_model : outcome (Classifier T))
    (fetched_scaler : outcome (option (ScalerParams T)))
    (fetched_labels : outcome (option (list string))) :
  let none_throws := exists m sc ls,
      fetched_model = Ok m /\ fetched_scaler = Ok sc /\ fetched_labels = Ok ls in
  let st' := loadAssets st fetched_model fetched_scaler fetched_labels in
  (buffer st' = buffer st /\ lastPredTime st' = lastPredTime st
   /\ shown st' = shown st /\ calls st' = calls st)
  /\ ((none_throws /\ logs st' = MsgModelReady)
      \/ (~ none_throws /\ logs st' = MsgAssetsFailed))
  /\ (forall m, fetched_model = Ok m -> model st' = Some m)
  /\ (forall m sc, fetched_model = Ok m -> fetched_scaler = Ok sc ->
                   scaler st' = sc)
  /\ (forall m sc ls, fetched_model = Ok m -> fetched_scaler = Ok sc ->
                      fetched_labels = Ok ls -> labels st' = ls)
  /\ (assets_loaded
        (loadAssets initial_state fetched_model fetched_scaler fetched_labels)
      <-> exists m sc ls,
            fetched_model = Ok m /\ fetched_scaler = Ok (Some sc)
            /\ fetched_labels = Ok (Some ls))
  /\ (forall m ls, fetched_model = Ok m -> fetched_scaler = Ok None ->
                   fetched_labels = Ok ls ->
                   logs st' = MsgModelReady /\ ~ assets_loaded st').
Proof.
  intros none_throws st'. subst none_throws st'. unfold loadAssets, assets_loaded.
  destruct fetched_model as [m|e1], fetched_scaler as [[sc|]|e2],
           fetched_labels as [[ls|]|e3]; simpl.
  all: split; [repeat split|].
  all: split;
    [first [ solve [left; split; [do 3 eexists; repeat split|reflexivity]]
           | solve [right; split;
                    [intros (? & ? & ? & ? & ? & ?); congruence|reflexivity]] ]|].
  all: split; [intros ? E; first [congruence|injection E as <-; reflexivity]|].
  all: split;
    [intros ? ? E1 E2; first [congruence|injection E2 as <-; reflexivity]|].
  all: split;
    [intros ? ? ? E1 E2 E3; first [congruence|injection E3 as <-; reflexivity]|].
  all: split;
    [split;
     [intros (Hm & Hs & Hl);
      first [congruence|solve [do 3 eexists; repeat split]]
     |intros (? & ? & ? & ? & ? & ?);
      first [congruence|solve [repeat split; discriminate]]]|].
  all: intros ? ? E1 E2 E3; first [congruence|idtac].
  all: split; [reflexivity|intros (_ & Hs & _); congruence].
Qed.

End Loading.

Lemma loadAssets_outcome_witness :
  let st' := loadAssets (@initial_state float)
               (Ok (constant_classifier [0.1; 0.9]%float)) (Ok None)
               (Ok (Some wisdm_labels)) in
  logs st' = MsgModelReady /\ ~ assets_loaded st'.
Proof.
  apply (loadAssets_outcome (@initial_state float)
           (Ok (constant_classifier [0.1; 0.9]%float)) (Ok None)
           (Ok (Some wisdm_labels))) with (m := constant_classifier [0.1; 0.9]%float)
                                          (ls := Some wisdm_labels);
    reflexivity.
Defined.

(* ------------------------------------------------------------------ *)
(** ** Sensor events *)

Lemma push_sample_subset (T : Type) (buf : list (Sample T)) smp s :
  In s (push_sample buf smp) -> In s buf \/ s = smp.
Proof.
  unfold push_sample. intros Hin.
  assert (Happ : In s (buf ++ [smp])).
  { destruct (_ <? _)%nat; [|exact Hin].
    destruct (buf ++ [smp]); [contradiction|right; exact Hin]. }
  apply in_app_or in Happ. destruct Happ as [Hb | [<- | []]]; auto.
Qed.

(** X12. Every sample the listener buffers has three numbers: a field that
    is missing, null or NaN in the event is replaced by 0.  So after any
    sequence of sensor events no buffered sample has a NaN field, provided
    none had before; an event without an acceleration object changes
    nothing. *)
Theorem buffered_samples_are_numbers (toLowerCase : string -> string)
    (events : list (MotionEvent float * Z)) :
  forall st : PipelineState float,
    (forall s, In s (buffer st) ->
               is_nan (x s) = false /\ is_nan (y s) = false /\ is_nan (z s) = false) ->
    (forall s, In s (buffer (run_events toLowerCase st events)) ->
               is_nan (x s) = false /\ is_nan (y s) = false /\ is_nan (z s) = false)
    /\ (forall now, handler toLowerCase st
                      {| accelerationIncludingGravity := None;
                         acceleration := None |} now = st).
Proof.
  induction events as [|e rest IH]; intros st Hinv; (split; [|reflexivity]).
  - exact Hinv.
  - unfold run_events. cbn [fold_left]. fold (run_events toLowerCase).
    apply IH. intros s.
    unfold handler. destruct (chosen_acceleration (fst e)) as [a|]; [|apply Hinv].
    rewrite processSample_buffer. intros Hin.
    apply push_sample_subset in Hin. destruct Hin as [Hin | ->]; [apply Hinv, Hin|].
    cbn [x y z]. repeat split; apply num_or_not_nan.
Qed.

Lemma buffered_samples_are_numbers_witness :
  forallb (fun s => negb (is_nan (x s) || is_nan (y s) || is_nan (z s)))
    (buffer (run_events toLowerCase_ascii (@initial_state float)
               [ ({| accelerationIncludingGravity :=
                       Some {| acc_x := Some nan; acc_y := None;
                               acc_z := Some 9.8%float |};
                     acceleration := None |}, 1000%Z);
                 ({| accelerationIncludingGravity := None;
                     acceleration := None |}, 1016%Z) ]))
  = true.
Proof.
  apply forallb_forall. intros s Hs.
  destruct (proj1 (buffered_samples_are_numbers toLowerCase_ascii _
                     (@initial_state float) (fun s (F : In s []) => False_ind _ F))
              s Hs)
    as (-> & -> & ->).
  reflexivity.
Defined.

(* ------------------------------------------------------------------ *)
(** ** The Start button *)

Section StartButton.

Context {T : Type} `{JsNumber T}.
Variable toLowerCase : string -> string.

Lemma click_subscribed (pg : Page T) perms :
  startBtn_disabled pg = true -> clicks pg perms = pg.
Proof.
  intros Hd. induction perms as [|p rest IH]; [reflexivity|].
  unfold clicks in *. cbn [fold_left]. unfold click at 2. rewrite Hd. exact IH.
Qed.

Lemma clicks_from_enabled (perms : list Permission) : forall pg : Page T,
  startBtn_disabled pg = false ->
  let pg' := clicks pg perms in
  (Exists grants perms
   /\ startBtn_disabled pg' = true
   /\ listeners pg' = S (listeners pg)
   /\ logs (pipeline pg') = MsgCapturing)
  \/ (~ Exists grants perms
      /\ startBtn_disabled pg' = false
      /\ listeners pg' = listeners pg
      /\ pipeline pg' = pipeline pg).
Proof.
  induction perms as [|p rest IH]; intros pg He.
  - right. repeat split; auto. intros E. inversion E.
  - unfold clicks. cbn [fold_left]. fold (clicks (click pg p) rest).
    assert (Ec : click pg p = onClick pg p)
      by (unfold click; rewrite He; reflexivity).
    rewrite Ec.
    assert (Hcases : (grants p /\ onClick pg p = subscribe (disable_button pg))
                     \/ (~ grants p
                         /\ startBtn_disabled (onClick pg p) = false
                         /\ listeners (onClick pg p) = listeners pg
                         /\ pipeline (onClick pg p) = pipeline pg)).
    { unfold onClick, startMotion, grants.
      destruct p as [|res|]; [left; auto| |right].
      - destruct (String.eqb_spec res "granted") as [->|Hne]; [left; auto|right].
        repeat split; auto. intros [E|E]; [discriminate|]. injection E as E. auto.
      - repeat split; auto. intros [E|E]; discriminate. }
    destruct Hcases as [[Hg Eo] | (Hng & Hd & Hl & Hp)].
    + left. rewrite Eo, click_subscribed by reflexivity.
      repeat split; auto.
    + destruct (IH (onClick pg p) Hd) as [(Hex & Hd' & Hl' & Hlog) | (Hnex & Hd' & Hl' & Hp')];
        cbv zeta in *.
      * left. repeat split; auto; congruence.
      * right. repeat split; auto; try congruence.
        intros E. inversion E; subst; auto.
Qed.

(** X13. Whatever clicks and permission answers follow one another, at
    most one [devicemotion] listener is ever registered; one is registered
    exactly when some click was granted (or needed no permission), and from
    then on the button is disabled.  Until then the button is enabled, the
    pipeline is untouched and sensor events reach nothing. *)
Theorem start_button_registers_once (st : PipelineState T)
    (perms : list Permission) :
  let pg := clicks (fresh_page st) perms in
  (listeners pg <= 1)%nat
  /\ (listeners pg = 1%nat <-> Exists grants perms)
  /\ (startBtn_disabled pg = true <-> Exists grants perms)
  /\ (~ Exists grants perms ->
      pipeline pg = st
      /\ forall ev now, pipeline (devicemotion toLowerCase pg ev now) = st).
Proof.
  intros pg. subst pg.
  destruct (clicks_from_enabled perms (fresh_page st) eq_refl)
    as [(Hex & Hd & Hl & _) | (Hnex & Hd & Hl & Hp)]; cbv zeta in *; simpl in Hl.
  - rewrite Hl, Hd. repeat split; auto; try lia; contradiction.
  - rewrite Hl, Hd. repeat split; auto; try lia; try discriminate;
      try (intros; contradiction).
    intros ev now. unfold devicemotion. cbn [pipeline]. rewrite Hl. exact Hp.
Qed.

(** X14. In the second copy only the first click counts: the button stays
    disabled after it whatever the answer.  A refusal on that click leaves
    the page without a listener for good, and a request that fails
    registers the listener all the same. *)
Theorem second_copy_first_click_decides (st : PipelineState T)
    (first : Permission) (later : list Permission) :
  let pg := SecondPage.clicks (fresh_page st) (first :: later) in
  pg = SecondPage.onClick (fresh_page st) first
  /\ startBtn_disabled pg = true
  /\ (listeners pg = 1%nat <-> (grants first \/ first = RequestThrows))
  /\ (listeners pg = 0%nat <-> ~ (grants first \/ first = RequestThrows)).
Proof.
  intros pg.
  assert (Hd : startBtn_disabled (SecondPage.onClick (fresh_page st) first) = true).
  { unfold SecondPage.onClick, SecondPage.startMotion.
    destruct first as [|res|]; try reflexivity.
    destruct (String.eqb res "granted"); reflexivity. }
  assert (Epg : pg = SecondPage.onClick (fresh_page st) first).
  { subst pg. unfold SecondPage.clicks. cbn [fold_left].
    change (SecondPage.click (fresh_page st) first)
      with (SecondPage.onClick (fresh_page st) first).
    induction later as [|p rest IH]; [reflexivity|].
    cbn [fold_left]. unfold SecondPage.click at 2. rewrite Hd. exact IH. }
  split; [exact Epg|]. rewrite Epg. split; [exact Hd|].
  unfold SecondPage.onClick, SecondPage.startMotion, grants.
  destruct first as [|res|]; simpl.
  - split; split; auto; try discriminate. intros N. exfalso. apply N. auto.
  - destruct (String.eqb_spec res "granted") as [->|Hne]; simpl.
    + split; split; auto; try discriminate. intros N. exfalso. apply N. auto.
    + split; split; try discriminate; auto.
      * intros [[E|E]|E]; try discriminate. injection E as E. contradiction.
      * intros _ [[E|E]|E]; try discriminate. injection E as E. contradiction.
  - split; split; auto; try discriminate. intros N. exfalso. apply N. auto.
Qed.

End StartButton.

Lemma start_button_registers_once_witness :
  listeners (clicks (fresh_page (@initial_state float))
               [Answered "denied"; RequestThrows; Answered "granted";
                Answered "granted"; NoPermissionApi]) = 1%nat.
Proof.
  apply (start_button_registers_once toLowerCase_ascii (@initial_state float)).
  right. right. left. right. reflexivity.
Defined.

(* ------------------------------------------------------------------ *)
(** ** More on the activity mapper *)

Ltac mapper_case :=
  repeat (split || intro);
  repeat match goal with
         | H : _ /\ _ |- _ => destruct H
         | H : _ \/ _ |- _ => destruct H
         end;
  try discriminate; try congruence; auto;
  try match goal with
      | E : ?l = _, I : includes ?l _ = true |- _ =>
          rewrite E in I; cbv in I; discriminate I
      end.

Section MapperShape.

Variable toLowerCase : string -> string.

(** X19. Which labels reach which level: [mapToFive] gives 5 exactly to the
    non-empty labels whose lower-case form is "jogging" or "running", and 1
    exactly to the non-empty labels whose lower-case form contains "sit" or
    "stand"; every other label gets 3. *)
Theorem mapToFive_levels_characterised (lab : string) :
  let l := toLowerCase lab in
  (mapToFive toLowerCase lab = 5%Z
   <-> lab <> EmptyString /\ (l = "jogging"%string \/ l = "running"%string))
  /\ (mapToFive toLowerCase lab = 1%Z
      <-> lab <> EmptyString
          /\ (includes l "sit" = true \/ includes l "stand" = true))
  /\ (mapToFive toLowerCase lab = 3%Z
      <-> mapToFive toLowerCase lab <> 5%Z /\ mapToFive toLowerCase lab <> 1%Z).
Proof.
  intros l. unfold mapToFive. fold l.
  assert (Hf : str_falsy lab = true <-> lab = EmptyString)
    by (unfold str_falsy; apply String.eqb_eq).
  destruct (str_falsy lab) eqn:Ef.
  - assert (lab = EmptyString) by (apply Hf; reflexivity).
    mapper_case.
  - assert (Hne : lab <> EmptyString) by (intros E; apply Hf in E; discriminate).
    destruct (includes l "sit") eqn:Esit; [|destruct (includes l "stand") eqn:Estand];
      cbn [orb]; [mapper_case|mapper_case|].
    destruct (String.eqb_spec l "walking") as [Ew|Nw];
      [|destruct (String.eqb_spec l "upstairs") as [Eu|Nu];
        [|destruct (String.eqb_spec l "downstairs") as [Ed|Nd];
          [|destruct (String.eqb_spec l "jogging") as [Ej|Nj];
            [|destruct (String.eqb_spec l "running") as [Er|Nr]]]]];
      cbn [orb]; mapper_case.
Qed.

End MapperShape.

Lemma toLowerCase_ascii_empty (s : string) :
  toLowerCase_ascii s = EmptyString -> s = EmptyString.
Proof. destruct s; [reflexivity|discriminate]. Qed.

(** X20. With ASCII labels the level does not depend on letter case:
    labels with the same lower-case form get the same level. *)
Theorem mapToFive_ignores_case (a b : string) :
  toLowerCase_ascii a = toLowerCase_ascii b ->
  mapToFive toLowerCase_ascii a = mapToFive toLowerCase_ascii b.
Proof.
  intros E. unfold mapToFive. rewrite <- E.
  replace (str_falsy b) with (str_falsy a); [reflexivity|].
  unfold str_falsy.
  destruct (String.eqb_spec a EmptyString) as [->|Ha];
    destruct (String.eqb_spec b EmptyString) as [->|Hb]; auto.
  - exfalso. apply Hb. apply toLowerCase_ascii_empty. rewrite <- E. reflexivity.
  - exfalso. apply Ha. apply toLowerCase_ascii_empty. rewrite E. reflexivity.
Qed.

Lemma mapToFive_ignores_case_witness :
  mapToFive toLowerCase_ascii "RuNNing" = mapToFive toLowerCase_ascii "running".
Proof. apply (mapToFive_ignores_case "RuNNing" "running"). reflexivity. Defined.

(* ------------------------------------------------------------------ *)
(** ** The second copy against the first *)






Lemma second_doPredictFromBuffer_buffer (toLowerCase : string -> string)
    (st : PipelineState float) now :
  buffer (fst (Second.doPredictFromBuffer toLowerCase st now)) = buffer st.
Proof.
  unfold Second.doPredictFromBuffer.
  repeat match goal with
         | |- context [if ?c then _ else _] => destruct c
         | |- context [match ?c with _ => _ end] => destruct c
         end; reflexivity.
Qed.

(** X22. The second copy keeps the same window: after any sequence of
    arrivals from an empty window the buffer holds the most recent samples,
    200 at most, in arrival order, whether or not the inferences it starts
    throw. *)
Theorem second_copy_window (toLowerCase : string -> string)
    (arrivals : list (Sample float * Z)) (st : PipelineState float) :
  buffer st = [] ->
  let st' := fold_left
               (fun s a => Second.processSample toLowerCase s (fst a) (snd a))
               arrivals st in
  (List.length (buffer st') <= SAMPLING_TARGET)%nat
  /\ buffer st' = most_recent SAMPLING_TARGET (map fst arrivals).
Proof.
  intros Hempty st'.
  assert (Hbuf : buffer st' = fold_left push_sample (map fst arrivals) (buffer st)).
  { subst st'. clear Hempty. revert st.
    induction arrivals as [|a rest IH]; intros st; [reflexivity|].
    cbn [fold_left map]. rewrite IH. f_equal.
    unfold Second.processSample.
    destruct (_ =? _)%nat; [rewrite second_doPredictFromBuffer_buffer|];
      reflexivity. }
  rewrite Hbuf, Hempty, pushes_most_recent by (simpl; lia). simpl.
  split; [|reflexivity].
  unfold most_recent. rewrite length_skipn. lia.
Qed.

Lemma second_copy_window_witness :
  buffer (fold_left
            (fun s a => Second.processSample toLowerCase_ascii s (fst a) (snd a))
            (repeat (sample_still, 1700000000000%Z) 205)
            (set_buffer (almost_full failing_classifier) []))
  = repeat sample_still 200.
Proof.
  destruct (second_copy_window toLowerCase_ascii
              (repeat (sample_still, 1700000000000%Z) 205)
              (set_buffer (almost_full failing_classifier) []) eq_refl)
    as [_ E].
  rewrite E. reflexivity.
Defined.
